(** * preprocess_gsd_dataset.py: a shallow embedding

    The script walks a CoNLL-U file line by line, rebuilds one record
    per sentence ([id], [words], [relns], [heads]) and drops the
    sentences that contain a CJK ideograph.

    A Python [str] is a sequence of Unicode code points; it is modelled
    as a list of code points in [Z].  Exceptions are never caught by the
    script, so a raised exception ends the run: fallible code returns a
    [result]. *)

From Stdlib Require Import ZArith List Bool Lia String Ascii.
Import ListNotations.
Open Scope Z_scope.

(** ** Strings *)

(** [char] is a code point, [str] a sequence of code points. *)
Abbreviation char := Z (only parsing).
Abbreviation str := (list Z) (only parsing).

Definition LF : char := 10.      (* '\n' *)
Definition TAB : char := 9.      (* '\t' *)
Definition SPACE : char := 32.   (* ' '  *)
Definition HASH : char := 35.    (* '#'  *)
Definition DASH : char := 45.    (* '-'  *)

(** A literal of the script, written as a Rocq string of ASCII characters. *)
Definition lit (s : string) : str :=
  map (fun a => Z.of_N (N_of_ascii a)) (list_ascii_of_string s).
Arguments lit s%_string.

(** [a == b] on strings. *)
Fixpoint str_eqb (a b : str) : bool :=
  match a, b with
  | [], [] => true
  | x :: a', y :: b' => (x =? y) && str_eqb a' b'
  | _, _ => false
  end.

(** [c in s] for a one-character [c]. *)
Definition contains (c : char) (s : str) : bool := existsb (Z.eqb c) s.

(** [s[i:j]] for literal bounds [0 <= i <= j]. *)
Definition slice (i j : nat) (s : str) : str := firstn (j - i) (skipn i s).

(** [str.isspace] of one character, the table [str.strip()] consults
    (CPython's [_PyUnicode_IsWhitespace]). *)
Definition isspace (c : char) : bool :=
  ((9 <=? c) && (c <=? 13)) || ((28 <=? c) && (c <=? 32))
  || (c =? 0x85) || (c =? 0xA0) || (c =? 0x1680)
  || ((0x2000 <=? c) && (c <=? 0x200A))
  || (c =? 0x2028) || (c =? 0x2029) || (c =? 0x202F)
  || (c =? 0x205F) || (c =? 0x3000).

Fixpoint lstrip (s : str) : str :=
  match s with
  | [] => []
  | c :: s' => if isspace c then lstrip s' else s
  end.

Definition rstrip (s : str) : str := rev (lstrip (rev s)).

(** [s.strip()]: whitespace is cut at both ends. *)
Definition strip (s : str) : str := lstrip (rstrip s).

(** Cutting a string at every character that satisfies [p]: always at
    least one field, empty fields are kept. *)
Fixpoint split_by (p : char -> bool) (s : str) : list str :=
  match s with
  | [] => [[]]
  | c :: s' =>
      if p c then [] :: split_by p s'
      else match split_by p s' with
           | f :: fs => (c :: f) :: fs
           | [] => [[c]]
           end
  end.

(** [s.split(sep)] for a one-character separator. *)
Definition split (sep : char) (s : str) : list str :=
  split_by (fun c => c =? sep) s.

(** ** Builtins that depend on the interpreter

    [str.isdigit] on a non-ASCII character reads the Unicode database of
    the interpreter, and [int(s)] accepts what that database calls a
    decimal digit.  Both are taken as an interface; on ASCII characters
    [isdigit] is fixed. *)

Class Builtins : Type := {
  unicode_isdigit : char -> bool;   (* [c.isdigit()] for [c >= 128] *)
  int : str -> option Z             (* [int(s)]; [None] is ValueError *)
}.

Definition isdigit {B : Builtins} (c : char) : bool :=
  if c <? 128 then (48 <=? c) && (c <=? 57) else unicode_isdigit c.

(** ** Exceptions *)

Inductive exn : Type :=
| ValueError_unpack (got : nat)   (* wrong number of values to unpack *)
| ValueError_int (s : str)        (* invalid literal for int() *)
| TypeError_NoneType              (* 'NoneType' object is not subscriptable *)
| IndexError.                     (* string index out of range *)

Inductive result (A : Type) : Type :=
| Ok (a : A)
| Raise (e : exn).
Arguments Ok {A} a.
Arguments Raise {A} e.

Definition bind {A B : Type} (m : result A) (k : A -> result B) : result B :=
  match m with
  | Ok a => k a
  | Raise e => Raise e
  end.

Notation "x <- m ;; k" := (bind m (fun x => k))
  (at level 61, m at next level, right associativity).

(** ** The record of one sentence *)

Record Example : Type := mkExample {
  ex_id : str;          (* 'id' *)
  words : list str;     (* 'words' *)
  relns : list str;     (* 'relns' *)
  heads : list Z        (* 'heads' *)
}.

(** ** The filter *)

Definition _is_chinese_char (cp : Z) : bool :=
  ((cp >=? 0x4E00) && (cp <=? 0x9FFF))
  || ((cp >=? 0x3400) && (cp <=? 0x4DBF))
  || ((cp >=? 0x20000) && (cp <=? 0x2A6DF))
  || ((cp >=? 0x2A700) && (cp <=? 0x2B73F))
  || ((cp >=? 0x2B740) && (cp <=? 0x2B81F))
  || ((cp >=? 0x2B820) && (cp <=? 0x2CEAF))
  || ((cp >=? 0xF900) && (cp <=? 0xFAFF))
  || ((cp >=? 0x2F800) && (cp <=? 0x2FA1F)).

(** The two nested loops with their early [return True]. *)
Fixpoint word_has_chinese_char (word : str) : bool :=
  match word with
  | [] => false
  | cp :: word' => if _is_chinese_char cp then true else word_has_chinese_char word'
  end.

Fixpoint words_have_chinese_char (ws : list str) : bool :=
  match ws with
  | [] => false
  | word :: ws' => if word_has_chinese_char word then true else words_have_chinese_char ws'
  end.

Definition has_chinese_char (ex : Example) : bool :=
  words_have_chinese_char (words ex).

(** ** One token line *)

(** The three [append]s on the open record. *)
Definition append_token (e : Example) (word reln : str) (h : Z) : Example :=
  {| ex_id := ex_id e;
     words := words e ++ [word];
     relns := relns e ++ [reln];
     heads := heads e ++ [h] |}.

(** [ex] is the caller's variable: [None] or the open record, which the
    function mutates in place.  The unpacking of the ten fields comes
    first, the compound test second, and only then is [ex] touched. *)
Definition get_word_data {B : Builtins} (line : str) (ex : option Example)
  : result (option Example) :=
  match split TAB (strip line) with
  | [word_id; word; _; _; _; _; head; reln; _; _] =>
      if contains DASH word_id then Ok ex
      else
        match ex with
        | None => Raise TypeError_NoneType            (* ex['words'] *)
        | Some e =>
            match int head with
            | None => Raise (ValueError_int head)
            | Some h => Ok (Some (append_token e word reln h))
            end
        end
  | fields => Raise (ValueError_unpack (List.length fields))
  end.

(** ** The loop over the lines *)

Record state : Type := mkState {
  filtered_examples : Z;
  preprocessed_dataset : list Example;
  ex : option Example
}.

Definition initial : state :=
  {| filtered_examples := 0; preprocessed_dataset := []; ex := None |}.

Definition set_ex (st : state) (e : option Example) : state :=
  {| filtered_examples := filtered_examples st;
     preprocessed_dataset := preprocessed_dataset st;
     ex := e |}.

(** The record a sentence-identifier line opens. *)
Definition new_example (line : str) : Example :=
  {| ex_id := last (split SPACE (strip line)) [];
     words := []; relns := []; heads := [] |}.

(** The body of the [for] loop.  [if ex:] holds for every record, a dict
    with four keys, and fails for [None].  After [append(ex)] the
    variable is set to [None], and an identifier line binds it to a
    fresh dict: an accepted record is never written to again. *)
Definition process_line {B : Builtins} (line : str) (st : state) : result state :=
  if str_eqb line [LF] then
    match ex st with
    | Some e =>
        if negb (has_chinese_char e) then
          Ok {| filtered_examples := filtered_examples st;
                preprocessed_dataset := preprocessed_dataset st ++ [e];
                ex := None |}
        else
          Ok {| filtered_examples := filtered_examples st + 1;
                preprocessed_dataset := preprocessed_dataset st;
                ex := None |}
    | None => Ok st
    end
  else
    match line with
    | [] => Raise IndexError                           (* line[0] *)
    | c0 :: _ =>
        if c0 =? HASH then
          if negb (str_eqb (slice 2 6 line) (lit "text")) then
            Ok (set_ex st (Some (new_example line)))
          else Ok st
        else if isdigit c0 then
          ex' <- get_word_data line (ex st) ;;
          Ok (set_ex st ex')
        else Ok st
    end.

Fixpoint run_lines {B : Builtins} (lines : list str) (st : state) : result state :=
  match lines with
  | [] => Ok st
  | line :: rest => st' <- process_line line st ;; run_lines rest st'
  end.

(** ** The whole function, with what it prints and writes *)

Inductive message : Type :=
| Filtered (n : Z)     (* "<n> examples were filtered for having chinese characters" *)
| Done.                (* "Done!" *)

Record world : Type := mkWorld {
  stdout : list message;
  output_file : option (list Example)   (* [None]: not written *)
}.

(** [lines] is what [f.readlines()] returned. *)
Definition get_examples_from_dataset {B : Builtins} (lines : list str) (w : world)
  : result unit * world :=
  match run_lines lines initial with
  | Raise e => (Raise e, w)
  | Ok st =>
      let out1 :=
        if filtered_examples st >? 0
        then stdout w ++ [Filtered (filtered_examples st)]
        else stdout w in
      (Ok tt, {| stdout := out1 ++ [Done];
                 output_file := Some (preprocessed_dataset st) |})
  end.

(** ** Vocabulary of the specification *)

(** The range table of the specification, inclusive bounds. *)
Definition ideographic (cp : Z) : Prop :=
  0x4E00 <= cp <= 0x9FFF \/ 0x3400 <= cp <= 0x4DBF
  \/ 0x20000 <= cp <= 0x2A6DF \/ 0x2A700 <= cp <= 0x2B73F
  \/ 0x2B740 <= cp <= 0x2B81F \/ 0x2B820 <= cp <= 0x2CEAF
  \/ 0xF900 <= cp <= 0xFAFF \/ 0x2F800 <= cp <= 0x2FA1F.

(** The alignment of the three sequences of a record. *)
Definition aligned (e : Example) : Prop :=
  List.length (words e) = List.length (heads e)
  /\ List.length (heads e) = List.length (relns e).

(** The alignment of every record the loop holds: the accepted ones and
    the open one. *)
Definition state_aligned (st : state) : Prop :=
  Forall aligned (preprocessed_dataset st)
  /\ (forall e, ex st = Some e -> aligned e).

(** How many records have been finalized: accepted ones and filtered ones. *)
Definition finalized (st : state) : Z :=
  Z.of_nat (List.length (preprocessed_dataset st)) + filtered_examples st.

Definition blank : str := [LF].

Definition is_blank (line : str) : bool := str_eqb line [LF].

Definition no_blank (lines : list str) : bool :=
  forallb (fun line => negb (is_blank line)) lines.

(** The state after the finalization of the open record [e]. *)
Definition finalize (st : state) (e : Example) : state :=
  if has_chinese_char e
  then {| filtered_examples := filtered_examples st + 1;
          preprocessed_dataset := preprocessed_dataset st;
          ex := None |}
  else {| filtered_examples := filtered_examples st;
          preprocessed_dataset := preprocessed_dataset st ++ [e];
          ex := None |}.

(** A comment line that opens a record: the second branch of the loop,
    with its inner test passing. *)
Definition opens_record (line : str) : bool :=
  match line with
  | c0 :: _ => (c0 =? HASH) && negb (str_eqb (slice 2 6 line) (lit "text"))
  | [] => false
  end.

(** The whitespace-separated fields of a string, as the specification
    words the identifier: runs of whitespace separate, no field is empty
    (Python's [s.split()] without argument). *)
Definition nonempty (f : str) : bool :=
  match f with [] => false | _ :: _ => true end.

Definition split_whitespace (s : str) : list str :=
  filter nonempty (split_by isspace s).

(** A string without its trailing line terminator. *)
Definition chomp (s : str) : str :=
  match rev s with
  | c :: r => if c =? LF then rev r else s
  | [] => s
  end.

(** The identifier as the specification words it: the final
    whitespace-separated field of the line trimmed of its line
    terminator. *)
Definition spec_id (line : str) : str :=
  last (split_whitespace (chomp line)) [].

(** ** An instance of the builtins, for closed examples

    ASCII only: no non-ASCII character is a digit, and [int] reads an
    optional sign and ASCII digits, single underscores allowed between
    digits, surrounding whitespace ignored. *)

Fixpoint int_digits (acc : Z) (after_digit : bool) (s : str) : option Z :=
  match s with
  | [] => if after_digit then Some acc else None
  | c :: s' =>
      if (48 <=? c) && (c <=? 57) then int_digits (10 * acc + (c - 48)) true s'
      else if (c =? 95) && after_digit then int_digits acc false s'
      else None
  end.

Definition int_ascii (s : str) : option Z :=
  match strip s with
  | [] => None
  | c :: s' =>
      if c =? 45 then option_map Z.opp (int_digits 0 false s')
      else if c =? 43 then int_digits 0 false s'
      else int_digits 0 false (c :: s')
  end.

Definition ascii_builtins : Builtins :=
  {| unicode_isdigit := fun _ => false; int := int_ascii |}.

(** ** Example inputs *)

(** ['\t'.join(fields) + '\n'] *)
Fixpoint join (sep : char) (fields : list str) : str :=
  match fields with
  | [] => []
  | [f] => f
  | f :: fs => f ++ sep :: join sep fs
  end.

Definition token_line (fields : list string) : str :=
  join TAB (map lit fields) ++ [LF].

Definition ni_hao : str := [0x4F60; 0x597D].

Definition block_s1 : list str :=
  [ lit "# sent_id = s1" ++ [LF];
    lit "# text = Hola mundo" ++ [LF];
    token_line ["1"; "Hola"; "_"; "_"; "_"; "_"; "0"; "root"; "_"; "_"]%string;
    token_line ["2"; "mundo"; "_"; "_"; "_"; "_"; "1"; "obj"; "_"; "_"]%string ].

Definition block_s2 : list str :=
  [ lit "# sent_id = s2" ++ [LF];
    lit "# text = " ++ ni_hao ++ [LF];
    join TAB [lit "1"; ni_hao; lit "_"; lit "_"; lit "_"; lit "_";
              lit "0"; lit "root"; lit "_"; lit "_"] ++ [LF] ].

(** The end-to-end input of the specification: no blank line after the
    second sentence. *)
Definition end_to_end : list str := block_s1 ++ [blank] ++ block_s2.

(** The record that is open when the components of "del" arrive. *)
Definition record_before_del : Example :=
  {| ex_id := lit "s3";
     words := [lit "Vengo"; lit "lejos"];
     relns := [lit "root"; lit "advmod"];
     heads := [0; 1] |}.

(** The same input when the file ends right after the last field, with
    no line terminator at all. *)
Definition end_to_end_unterminated : list str :=
  block_s1 ++ [blank] ++
  [ lit "# sent_id = s2" ++ [LF];
    lit "# text = " ++ ni_hao ++ [LF];
    join TAB [lit "1"; ni_hao; lit "_"; lit "_"; lit "_"; lit "_";
              lit "0"; lit "root"; lit "_"; lit "_"] ].

Definition record_s1 : Example :=
  {| ex_id := lit "s1";
     words := [lit "Hola"; lit "mundo"];
     relns := [lit "root"; lit "obj"];
     heads := [0; 1] |}.

Definition record_s2 : Example :=
  {| ex_id := lit "s2"; words := [ni_hao]; relns := [lit "root"]; heads := [0] |}.

Definition empty_world : world := {| stdout := []; output_file := None |}.

(** A sentence with the compound "del" = "de" + "el". *)
Definition compound_line : str :=
  token_line ["3-4"; "del"; "_"; "_"; "_"; "_"; "_"; "_"; "_"; "_"]%string.
Definition component_3 : str :=
  token_line ["3"; "de"; "_"; "_"; "_"; "_"; "5"; "case"; "_"; "_"]%string.
Definition component_4 : str :=
  token_line ["4"; "el"; "_"; "_"; "_"; "_"; "5"; "det"; "_"; "_"]%string.

(** A token line cut short: eight fields. *)
Definition short_line : str :=
  token_line ["1"; "Hola"; "_"; "_"; "_"; "_"; "0"; "root"]%string.

(** An identifier line with a tab before the identifier. *)
Definition tab_id_line : str :=
  lit "# sent_id =" ++ [TAB] ++ lit "s1" ++ [LF].

(** ** Further vocabulary *)

(** The state [st] continued by what a run from the initial counter and
    output produced. *)
Definition continued (st s : state) : state :=
  {| filtered_examples := filtered_examples st + filtered_examples s;
     preprocessed_dataset := preprocessed_dataset st ++ preprocessed_dataset s;
     ex := ex s |}.

Definition count_lines (p : str -> bool) (lines : list str) : Z :=
  Z.of_nat (List.length (filter p lines)).

Definition open_records (st : state) : Z :=
  match ex st with Some _ => 1 | None => 0 end.

(** A line on which the loop does nothing: a comment line with "text"
    at characters 2 to 5, or a line that is not the blank line and
    starts neither with ['#'] nor with a digit. *)
Definition is_ignored {B : Builtins} (line : str) : bool :=
  match line with
  | [] => false
  | c0 :: _ =>
      negb (is_blank line)
      && (if c0 =? HASH then str_eqb (slice 2 6 line) (lit "text")
          else negb (isdigit c0))
  end.

(** A token line made of its fields: ['\t'.join(fields) + '\n']. *)
Definition conllu_line (fields : list str) : str := join TAB fields ++ [LF].

Definition field (i : nat) (token : list str) : str := nth i token [].

(** A token that is not a compound span. *)
Definition is_plain (token : list str) : bool :=
  negb (contains DASH (field 0 token)).

(** Ten fields without a tab inside, the first starting with a digit
    (one that is no whitespace, as every ASCII digit is) and the last
    ending with a character that is not whitespace. *)
Definition well_formed_token {B : Builtins} (token : list str) : bool :=
  (List.length token =? 10)%nat
  && forallb (fun f => negb (contains TAB f)) token
  && match field 0 token with
     | c :: _ => isdigit c && negb (isspace c)
     | [] => false
     end
  && match rev (field 9 token) with
     | c :: _ => negb (isspace c)
     | [] => false
     end.

(** The identifier line of the format. *)
Definition sent_id_line (ident : str) : str :=
  lit "# sent_id = " ++ ident ++ [LF].

(** An identifier: not empty, no whitespace inside. *)
Definition is_identifier (ident : str) : bool :=
  nonempty ident && forallb (fun c => negb (isspace c)) ident.







(** The tokens of a sentence with the compound "del". *)
Definition tokens_vengo : list (list str) :=
  [ map lit ["1"; "Vengo"; "_"; "_"; "_"; "_"; "0"; "root"; "_"; "_"]%string;
    map lit ["2-3"; "del"; "_"; "_"; "_"; "_"; "_"; "_"; "_"; "_"]%string;
    map lit ["2"; "de"; "_"; "_"; "_"; "_"; "4"; "case"; "_"; "_"]%string;
    map lit ["3"; "el"; "_"; "_"; "_"; "_"; "4"; "det"; "_"; "_"]%string;
    map lit ["4"; "mar"; "_"; "_"; "_"; "_"; "1"; "obl"; "_"; "_"]%string ].



(** A token line with a head that is no number. *)
Definition no_head_line : str :=
  token_line ["3"; "de"; "_"; "_"; "_"; "_"; "_"; "case"; "_"; "_"]%string.

(** A line of two spaces: it looks blank and is not the blank line. *)
Definition spaces_line : str := lit "  " ++ [LF].

(** ** The entry point of the script

    What [parse_args] returned is a record of strings; [output_dir] is
    [None] when the option is absent. *)

Record Args : Type := mkArgs {
  dataset_dir : str;
  language : str;
  partition : str;
  output_dir : option str
}.

Definition partitions (args : Args) : list str :=
  if str_eqb (partition args) (lit "all")
  then [lit "dev"; lit "test"; lit "train"]
  else [partition args].

Definition dataset_filename (args : Args) (partition : str) : str :=
  dataset_dir args ++ lit "/" ++ language args ++ lit "_gsd-ud-"
    ++ partition ++ lit ".conllu".

Definition output_filename (args : Args) (partition : str) : str :=
  match output_dir args with
  | Some dir => dir
  | None => dataset_dir args
  end ++ lit "/" ++ language args ++ lit "_gsd-ud-" ++ partition ++ lit ".json".

(** The text that [json.dump] writes, as the lines a later [readlines]
    would return: a library function, taken as an interface. *)
Class Json : Type := {
  json_dump : list Example -> list str
}.

Inductive console_line : Type :=
| Preprocessed (partition : str)     (* "Preprocessed <partition>..." *)
| Said (m : message).

(** A file that exists. *)
Inductive file : Type :=
| Text (lines : list str)     (* [readlines()] returns these lines *)
| Undecodable.                (* the file opens and [readlines()] raises *)

(** What happens when the script writes a file. *)
Inductive write_outcome : Type :=
| Written                     (* [open(name, 'w')] and [json.dump] succeed *)
| OpenFails                   (* [open(name, 'w')] raises: the file is untouched *)
| DumpFails (partial : list str).  (* [json.dump] raises: the file holds [partial] *)

(** What has been printed, the files by name ([None]: [open(name, 'r')]
    raises), and what writing a name leads to. *)
Record system : Type := mkSystem {
  console : list console_line;
  files : str -> option file;
  writing : str -> write_outcome
}.

Inductive failure : Type :=
| CannotOpen (filename : str)      (* [open(dataset_filename, 'r')] raised *)
| CannotDecode (filename : str)    (* [f.readlines()] raised *)
| Uncaught (e : exn)               (* the loop raised *)
| CannotWrite (filename : str)     (* [open(output_filename, 'w')] raised *)
| CannotDump (filename : str).     (* [json.dump] raised *)

Definition write_file (fs : str -> option file) (filename : str)
    (lines : list str) : str -> option file :=
  fun name => if str_eqb name filename then Some (Text lines) else fs name.

(** [get_examples_from_dataset(dataset_filename, output_filename)] with
    its files: the input is opened and read before the loop; after the
    loop the count is printed when positive, then the output is opened
    for writing, the records are dumped, and "Done!" is printed. *)
Definition get_examples_from_dataset_files {B : Builtins} {J : Json}
    (dataset_filename output_filename : str) (s : system)
  : option failure * system :=
  match files s dataset_filename with
  | None => (Some (CannotOpen dataset_filename), s)
  | Some Undecodable => (Some (CannotDecode dataset_filename), s)
  | Some (Text lines) =>
      match run_lines lines initial with
      | Raise e => (Some (Uncaught e), s)
      | Ok st =>
          let printed :=
            if filtered_examples st >? 0
            then console s ++ [Said (Filtered (filtered_examples st))]
            else console s in
          match writing s output_filename with
          | OpenFails =>
              (Some (CannotWrite output_filename),
               {| console := printed; files := files s; writing := writing s |})
          | DumpFails partial =>
              (Some (CannotDump output_filename),
               {| console := printed;
                  files := write_file (files s) output_filename partial;
                  writing := writing s |})
          | Written =>
              (None,
               {| console := printed ++ [Said Done];
                  files := write_file (files s) output_filename
                             (json_dump (preprocessed_dataset st));
                  writing := writing s |})
          end
      end
  end.

(** The [for] loop over the partitions. *)
Fixpoint main_loop {B : Builtins} {J : Json} (args : Args) (todo : list str)
    (s : system) : option failure * system :=
  match todo with
  | [] => (None, s)
  | partition :: rest =>
      let s1 := {| console := console s ++ [Preprocessed partition];
                   files := files s;
                   writing := writing s |} in
      match get_examples_from_dataset_files
              (dataset_filename args partition) (output_filename args partition) s1
      with
      | (None, s2) => main_loop args rest s2
      | (Some x, s2) => (Some x, s2)
      end
  end.

Definition main {B : Builtins} {J : Json} (args : Args) (s : system)
  : option failure * system :=
  main_loop args (partitions args) s.

(** Why a call fails, in terms of the files it was given. *)
Definition failed_on {B : Builtins} (s : system) (input output : str)
    (x : failure) : Prop :=
  match x with
  | CannotOpen name => name = input /\ files s input = None
  | CannotDecode name => name = input /\ files s input = Some Undecodable
  | Uncaught e =>
      exists lines,
        files s input = Some (Text lines) /\ run_lines lines initial = Raise e
  | CannotWrite name =>
      name = output /\ writing s output = OpenFails
      /\ exists lines st,
           files s input = Some (Text lines) /\ run_lines lines initial = Ok st
  | CannotDump name =>
      name = output /\ (exists partial, writing s output = DumpFails partial)
      /\ exists lines st,
           files s input = Some (Text lines) /\ run_lines lines initial = Ok st
  end.

(** The files after a call that failed with [x]: as before, but for the
    output that [json.dump] left unfinished. *)
Definition after_failure (s : system) (output : str) (x : failure)
  : str -> option file :=
  match x, writing s output with
  | CannotDump _, DumpFails partial => write_file (files s) output partial
  | _, _ => files s
  end.

(** What a call for one partition leaves in its output file: the dump
    of the records accepted from the lines of its input file. *)
Definition processed {B : Builtins} {J : Json} (fs fs' : str -> option file)
    (input output : str) : Prop :=
  exists lines st,
    fs input = Some (Text lines)
    /\ run_lines lines initial = Ok st
    /\ fs' output = Some (Text (json_dump (preprocessed_dataset st))).

(** An instance for closed examples; what the dumped text looks like
    plays no part in them. *)
Definition one_line_json : Json :=
  {| json_dump := fun d => [lit "json of " ++ List.concat (map ex_id d)] |}.

Definition args_all : Args :=
  {| dataset_dir := lit "data"; language := lit "es"; partition := lit "all";
     output_dir := None |}.

(** A directory with the dev and the train partition; the train file
    has a token line cut short, and there is no test file.  Files can
    be written in "data" and in "out", and nowhere else. *)
Definition data_directory : system :=
  {| console := [];
     files := fun name =>
       if str_eqb name (lit "data/es_gsd-ud-dev.conllu")
       then Some (Text (end_to_end ++ [blank]))
       else if str_eqb name (lit "data/es_gsd-ud-train.conllu")
       then Some (Text (block_s1 ++ short_line :: [blank]))
       else None;
     writing := fun name =>
       if str_eqb (firstn 5 name) (lit "data/") || str_eqb (firstn 4 name) (lit "out/")
       then Written else OpenFails |}.

Definition args_missing_dir : Args :=
  {| dataset_dir := lit "data"; language := lit "es"; partition := lit "dev";
     output_dir := Some (lit "nowhere") |}.

Definition args_dev : Args :=
  {| dataset_dir := lit "data"; language := lit "es"; partition := lit "dev";
     output_dir := Some (lit "out") |}.

Example end_to_end_run :
  run_lines (B := ascii_builtins) end_to_end initial =
  Ok {| filtered_examples := 0;
        preprocessed_dataset := [record_s1];
        ex := Some record_s2 |}.
Proof. vm_compute. reflexivity. Qed.

(** * Properties *)

(** ** Strings *)

Lemma str_eqb_eq (a b : str) : str_eqb a b = true <-> a = b.
Proof.
  revert b; induction a as [|x a IH]; intros [|y b]; simpl;
    try (split; [discriminate | congruence]); try tauto.
  rewrite andb_true_iff, Z.eqb_eq, IH.
  split; [intros [-> ->]; reflexivity | intros [= -> ->]; auto].
Qed.

Lemma str_eqb_refl (a : str) : str_eqb a a = true.
Proof. now apply str_eqb_eq. Qed.

Lemma str_eqb_neq (a b : str) : str_eqb a b = false <-> a <> b.
Proof.
  rewrite <- str_eqb_eq. destruct (str_eqb a b); split; congruence.
Qed.

Lemma contains_In (c : char) (s : str) : contains c s = true <-> In c s.
Proof.
  unfold contains. rewrite existsb_exists. split.
  - intros (x & Hx & E). apply Z.eqb_eq in E. now subst.
  - intros Hc. exists c. split; [assumption | apply Z.eqb_refl].
Qed.

(** ** The filter *)

Lemma _is_chinese_char_spec (cp : Z) :
  _is_chinese_char cp = true <-> ideographic cp.
Proof.
  unfold _is_chinese_char, ideographic.
  rewrite !orb_true_iff, !andb_true_iff, !Z.geb_le, !Z.leb_le.
  tauto.
Qed.

Lemma word_has_chinese_char_spec (word : str) :
  word_has_chinese_char word = true <-> exists c, In c word /\ ideographic c.
Proof.
  induction word as [|cp word IH]; simpl.
  - split; [discriminate | intros (c & [] & _)].
  - destruct (_is_chinese_char cp) eqn:E.
    + split; [intros _ | reflexivity].
      exists cp. split; [now left | now apply _is_chinese_char_spec].
    + rewrite IH. split.
      * intros (c & Hc & Hi). exists c. split; [now right | assumption].
      * intros (c & [<- | Hc] & Hi).
        -- apply _is_chinese_char_spec in Hi. congruence.
        -- now exists c.
Qed.

Lemma words_have_chinese_char_spec (ws : list str) :
  words_have_chinese_char ws = true <->
  exists word c, In word ws /\ In c word /\ ideographic c.
Proof.
  induction ws as [|word ws IH]; simpl.
  - split; [discriminate | intros (w & c & [] & _)].
  - destruct (word_has_chinese_char word) eqn:E.
    + split; [intros _ | reflexivity].
      apply word_has_chinese_char_spec in E. destruct E as (c & Hc & Hi).
      exists word, c. auto.
    + rewrite IH. split.
      * intros (w & c & Hw & Hc & Hi). exists w, c. auto.
      * intros (w & c & [<- | Hw] & Hc & Hi).
        -- assert (word_has_chinese_char word = true) as E'
             by (apply word_has_chinese_char_spec; now exists c).
           congruence.
        -- now exists w, c.
Qed.

(** C2. [has_chinese_char] answers true exactly when some character of
    some string of ['words'] has its code point in one of the eight
    inclusive ranges of the table; [0x4DBF] is inside and [0x4DC0] is
    outside. *)
Theorem has_chinese_char_iff_ideographic :
  (forall e : Example,
      has_chinese_char e = true <->
      exists word c, In word (words e) /\ In c word /\ ideographic c)
  /\ has_chinese_char {| ex_id := []; words := [[0x4DBF]]; relns := []; heads := [] |} = true
  /\ has_chinese_char {| ex_id := []; words := [[0x4DC0]]; relns := []; heads := [] |} = false
  /\ ideographic 0x4DBF /\ ~ ideographic 0x4DC0.
Proof.
  split; [| repeat split].
  - intros e. apply words_have_chinese_char_spec.
  - unfold ideographic. lia.
  - unfold ideographic. lia.
Qed.

(** ** One step of the loop, branch by branch *)

(** The cases of the tuple unpacking: ten fields, or any other number. *)
Ltac unpack_fields line :=
  destruct (split TAB (strip line)) as [|?a0 [|?a1 [|?a2 [|?a3 [|?a4 [|?a5 [|?a6
    [|?a7 [|?a8 [|?a9 [|?a10 ?l]]]]]]]]]]].

Section Loop.
Context {B : Builtins}.

Lemma isdigit_first (c : char) :
  isdigit c = true -> c <> LF /\ c <> HASH.
Proof.
  unfold isdigit, LF, HASH. destruct (Z.ltb_spec c 128) as [Hlt | Hge].
  - rewrite andb_true_iff, !Z.leb_le. lia.
  - lia.
Qed.

Lemma process_line_blank (st : state) :
  process_line blank st =
  match ex st with
  | Some e =>
      if has_chinese_char e
      then Ok {| filtered_examples := filtered_examples st + 1;
                 preprocessed_dataset := preprocessed_dataset st;
                 ex := None |}
      else Ok {| filtered_examples := filtered_examples st;
                 preprocessed_dataset := preprocessed_dataset st ++ [e];
                 ex := None |}
  | None => Ok st
  end.
Proof.
  unfold process_line, blank. rewrite str_eqb_refl.
  destruct (ex st) as [e|]; [| reflexivity].
  destruct (has_chinese_char e); reflexivity.
Qed.

Lemma process_line_comment (r : str) (st : state) :
  process_line (HASH :: r) st =
  if str_eqb (slice 2 6 (HASH :: r)) (lit "text") then Ok st
  else Ok (set_ex st (Some (new_example (HASH :: r)))).
Proof.
  unfold process_line.
  replace (str_eqb (HASH :: r) [LF]) with false by reflexivity.
  rewrite Z.eqb_refl.
  destruct (str_eqb (slice 2 6 (HASH :: r)) (lit "text")); reflexivity.
Qed.

Lemma process_line_token (c0 : char) (r : str) (st : state) :
  isdigit c0 = true ->
  process_line (c0 :: r) st =
  (ex' <- get_word_data (c0 :: r) (ex st) ;; Ok (set_ex st ex')).
Proof.
  intros Hd. destruct (isdigit_first _ Hd) as [Hlf Hhash].
  unfold process_line.
  replace (str_eqb (c0 :: r) [LF]) with false.
  2:{ symmetry. apply str_eqb_neq. congruence. }
  apply Z.eqb_neq in Hhash. rewrite Hhash, Hd. reflexivity.
Qed.

Lemma opens_record_inv (line : str) :
  opens_record line = true ->
  exists r, line = HASH :: r /\ str_eqb (slice 2 6 line) (lit "text") = false.
Proof.
  destruct line as [|c0 r]; [discriminate |].
  unfold opens_record. rewrite andb_true_iff, Z.eqb_eq, negb_true_iff.
  intros [-> Ht]. now exists r.
Qed.

Lemma process_line_opens (line : str) (st : state) :
  opens_record line = true ->
  process_line line st = Ok (set_ex st (Some (new_example line))).
Proof.
  intros Ho. destruct (opens_record_inv _ Ho) as (r & -> & Ht).
  rewrite process_line_comment, Ht. reflexivity.
Qed.

(** ** One token line *)

Lemma get_word_data_fields (line : str) (ex0 : option Example)
    (word_id word f2 f3 f4 f5 head reln f8 f9 : str) :
  split TAB (strip line) = [word_id; word; f2; f3; f4; f5; head; reln; f8; f9] ->
  get_word_data line ex0 =
  if contains DASH word_id then Ok ex0
  else match ex0 with
       | None => Raise TypeError_NoneType
       | Some e =>
           match int head with
           | None => Raise (ValueError_int head)
           | Some h => Ok (Some (append_token e word reln h))
           end
       end.
Proof. intros E. unfold get_word_data. rewrite E. reflexivity. Qed.

Lemma get_word_data_unpack (line : str) (ex0 : option Example) :
  List.length (split TAB (strip line)) <> 10%nat ->
  get_word_data line ex0 =
  Raise (ValueError_unpack (List.length (split TAB (strip line)))).
Proof.
  intros Hn. unfold get_word_data.
  unpack_fields line; try reflexivity.
  now contradiction Hn.
Qed.

(** What a successful call does to the open record: nothing, or one
    element more in each of the three sequences. *)
Lemma get_word_data_ok (line : str) (ex0 ex1 : option Example) :
  get_word_data line ex0 = Ok ex1 ->
  ex1 = ex0 \/
  exists e word reln h,
    ex0 = Some e /\ ex1 = Some (append_token e word reln h).
Proof.
  unfold get_word_data.
  unpack_fields line; try discriminate.
  destruct (contains DASH a0).
  - intros [= <-]. now left.
  - destruct ex0 as [e|]; [| discriminate].
    destruct (int a6) as [h|]; [| discriminate].
    intros [= <-]. right. now exists e, a1, a7, h.
Qed.

End Loop.

(** ** The run *)

Section Run.
Context {B : Builtins}.

Lemma set_ex_same (st : state) : set_ex st (ex st) = st.
Proof. now destruct st. Qed.

Lemma run_lines_app (a b : list str) (st : state) :
  run_lines (a ++ b) st = (st' <- run_lines a st ;; run_lines b st').
Proof.
  revert st; induction a as [|l a IH]; intros st; simpl; [reflexivity |].
  destruct (process_line l st) as [st1 | e]; simpl; [apply IH | reflexivity].
Qed.

Lemma process_line_token_append (c0 : char) (r : str) (st : state) (e : Example)
    (word_id word f2 f3 f4 f5 head reln f8 f9 : str) (h : Z) :
  isdigit c0 = true ->
  split TAB (strip (c0 :: r)) = [word_id; word; f2; f3; f4; f5; head; reln; f8; f9] ->
  contains DASH word_id = false ->
  int head = Some h ->
  ex st = Some e ->
  process_line (c0 :: r) st = Ok (set_ex st (Some (append_token e word reln h))).
Proof.
  intros Hd Hf Hc Hi He.
  rewrite (process_line_token _ _ _ Hd), (get_word_data_fields _ _ _ _ _ _ _ _ _ _ _ _ Hf).
  rewrite Hc, He, Hi. reflexivity.
Qed.

Lemma process_line_token_compound (c0 : char) (r : str) (st : state)
    (word_id word f2 f3 f4 f5 head reln f8 f9 : str) :
  isdigit c0 = true ->
  split TAB (strip (c0 :: r)) = [word_id; word; f2; f3; f4; f5; head; reln; f8; f9] ->
  contains DASH word_id = true ->
  process_line (c0 :: r) st = Ok st.
Proof.
  intros Hd Hf Hc.
  rewrite (process_line_token _ _ _ Hd), (get_word_data_fields _ _ _ _ _ _ _ _ _ _ _ _ Hf).
  rewrite Hc. simpl. now rewrite set_ex_same.
Qed.

(** C4. A token line whose index field contains ['-'] leaves the record
    as it is (nothing is added to [words], [heads] or [relns]); a line
    with a plain index appends its form, its parsed head and its
    relation at the end of the three sequences, so that successive
    lines are recorded in input order. *)
Theorem compound_line_skipped_components_appended
    (line : str) (word_id word f2 f3 f4 f5 head reln f8 f9 : str) :
  split TAB (strip line) = [word_id; word; f2; f3; f4; f5; head; reln; f8; f9] ->
  (contains DASH word_id = true ->
   forall ex0, get_word_data line ex0 = Ok ex0)
  /\ (contains DASH word_id = false ->
      forall e h, int head = Some h ->
        get_word_data line (Some e) =
        Ok (Some {| ex_id := ex_id e;
                    words := words e ++ [word];
                    relns := relns e ++ [reln];
                    heads := heads e ++ [h] |})).
Proof.
  intros Hf. split.
  - intros Hc ex0.
    rewrite (get_word_data_fields _ _ _ _ _ _ _ _ _ _ _ _ Hf), Hc. reflexivity.
  - intros Hc e h Hi.
    rewrite (get_word_data_fields _ _ _ _ _ _ _ _ _ _ _ _ Hf), Hc, Hi. reflexivity.
Qed.

End Run.

Lemma compound_line_skipped_components_appended_witness :
  get_word_data (B := ascii_builtins) compound_line (Some record_before_del)
    = Ok (Some record_before_del)
  /\ get_word_data (B := ascii_builtins) component_3 (Some record_before_del)
     = Ok (Some {| ex_id := lit "s3";
                   words := [lit "Vengo"; lit "lejos"; lit "de"];
                   relns := [lit "root"; lit "advmod"; lit "case"];
                   heads := [0; 1; 5] |}).
Proof.
  split.
  - exact (proj1 (compound_line_skipped_components_appended (B := ascii_builtins)
                    compound_line _ _ _ _ _ _ _ _ _ _ eq_refl)
             eq_refl (Some record_before_del)).
  - exact (proj2 (compound_line_skipped_components_appended (B := ascii_builtins)
                    component_3 _ _ _ _ _ _ _ _ _ _ eq_refl)
             eq_refl record_before_del 5 eq_refl).
Defined.

(** The compound "del" and its components "de", "el", one after the
    other: the record gains "de" and "el", in that order, and nothing
    for "del". *)
Example compound_then_components :
  run_lines (B := ascii_builtins) [compound_line; component_3; component_4]
    {| filtered_examples := 0; preprocessed_dataset := [];
       ex := Some record_before_del |}
  = Ok {| filtered_examples := 0; preprocessed_dataset := [];
          ex := Some {| ex_id := lit "s3";
                        words := [lit "Vengo"; lit "lejos"; lit "de"; lit "el"];
                        relns := [lit "root"; lit "advmod"; lit "case"; lit "det"];
                        heads := [0; 1; 5; 5] |} |}.
Proof. vm_compute. reflexivity. Qed.

(** ** Errors *)

Section Errors.
Context {B : Builtins}.

Lemma run_lines_raise_at (pre post : list str) (line : str) (st0 : state) (x : exn) :
  (forall st, process_line line st = Raise x) ->
  exists x', run_lines (pre ++ line :: post) st0 = Raise x'.
Proof.
  intros Hl. rewrite run_lines_app.
  destruct (run_lines pre st0) as [st | x']; simpl.
  - rewrite Hl. simpl. now exists x.
  - now exists x'.
Qed.

(** C6. A token line (first character a digit) that does not split
    into ten tab-separated fields once stripped raises at once, whatever
    the state; the run of a stream that contains such a line ends with
    an exception whatever follows the line, and leaves the world as it
    was: nothing is printed and the output file is not written. *)
Theorem malformed_token_line_aborts (c0 : char) (r : str) :
  isdigit c0 = true ->
  List.length (split TAB (strip (c0 :: r))) <> 10%nat ->
  (forall st,
      process_line (c0 :: r) st =
      Raise (ValueError_unpack (List.length (split TAB (strip (c0 :: r))))))
  /\ (forall (pre post : list str) st,
         run_lines pre initial = Ok st ->
         run_lines (pre ++ (c0 :: r) :: post) initial =
         Raise (ValueError_unpack (List.length (split TAB (strip (c0 :: r))))))
  /\ (forall (pre post : list str) w,
         exists x, get_examples_from_dataset (pre ++ (c0 :: r) :: post) w = (Raise x, w)).
Proof.
  intros Hd Hn.
  assert (forall st,
             process_line (c0 :: r) st =
             Raise (ValueError_unpack (List.length (split TAB (strip (c0 :: r))))))
    as Hstep.
  { intros st. rewrite (process_line_token _ _ _ Hd).
    rewrite (get_word_data_unpack _ _ Hn). reflexivity. }
  split; [exact Hstep | split].
  - intros pre post st Hpre. rewrite run_lines_app, Hpre. simpl.
    rewrite Hstep. reflexivity.
  - intros pre post w. unfold get_examples_from_dataset.
    destruct (run_lines_raise_at pre post _ initial _ Hstep) as (x & ->).
    now exists x.
Qed.

(** What the loop does with a token line when no record is open. *)
Lemma process_line_orphan (c0 : char) (r : str) (st : state) :
  isdigit c0 = true ->
  ex st = None ->
  process_line (c0 :: r) st =
  match split TAB (strip (c0 :: r)) with
  | [word_id; _; _; _; _; _; _; _; _; _] =>
      if contains DASH word_id then Ok st else Raise TypeError_NoneType
  | fields => Raise (ValueError_unpack (List.length fields))
  end.
Proof.
  intros Hd He. rewrite (process_line_token _ _ _ Hd), He.
  unfold get_word_data.
  unpack_fields (c0 :: r); try reflexivity.
  destruct (contains DASH a0); simpl; [| reflexivity].
  rewrite <- He, set_ex_same. reflexivity.
Qed.

(** C8, as the code has it. A token line met while no record is open
    raises unless it is a compound line: with another number of fields
    than ten the unpacking raises; with ten fields and an index without
    ['-'] the subscript on the absent record raises; with ten fields and
    ['-'] in the index the line is skipped and the state is kept. *)
Theorem orphan_token_line_raises_unless_compound (c0 : char) (r : str) (st : state) :
  isdigit c0 = true ->
  ex st = None ->
  (List.length (split TAB (strip (c0 :: r))) <> 10%nat ->
   process_line (c0 :: r) st =
   Raise (ValueError_unpack (List.length (split TAB (strip (c0 :: r))))))
  /\ (forall word_id word f2 f3 f4 f5 head reln f8 f9,
         split TAB (strip (c0 :: r)) =
           [word_id; word; f2; f3; f4; f5; head; reln; f8; f9] ->
         process_line (c0 :: r) st =
         if contains DASH word_id then Ok st else Raise TypeError_NoneType).
Proof.
  intros Hd He. split.
  - intros Hn. rewrite (process_line_token _ _ _ Hd).
    rewrite (get_word_data_unpack _ _ Hn). reflexivity.
  - intros word_id word f2 f3 f4 f5 head reln f8 f9 Hf.
    rewrite (process_line_orphan _ _ _ Hd He), Hf. reflexivity.
Qed.

End Errors.

Lemma malformed_token_line_aborts_witness :
  process_line (B := ascii_builtins) short_line initial = Raise (ValueError_unpack 8)
  /\ run_lines (B := ascii_builtins)
       (block_s1 ++ [blank; lit "# sent_id = s2" ++ [LF]] ++ short_line :: [blank])
       initial
     = Raise (ValueError_unpack 8)
  /\ exists x,
       get_examples_from_dataset (B := ascii_builtins)
         (block_s1 ++ short_line :: [blank]) empty_world
       = (Raise x, empty_world).
Proof.
  pose proof (malformed_token_line_aborts (B := ascii_builtins)
                49 (tl short_line) eq_refl) as H.
  assert (List.length (split TAB (strip (49 :: tl short_line))) <> 10%nat) as Hn
    by (vm_compute; discriminate).
  destruct (H Hn) as (H1 & H2 & H3).
  split; [| split].
  - exact (H1 initial).
  - exact (H2 (block_s1 ++ [blank; lit "# sent_id = s2" ++ [LF]]) [blank]
              {| filtered_examples := 0; preprocessed_dataset := [record_s1];
                 ex := Some {| ex_id := lit "s2"; words := []; relns := [];
                               heads := [] |} |}
              eq_refl).
  - exact (H3 block_s1 [blank] empty_world).
Defined.

(** C8, as stated, fails: a compound line met while no record is open
    is a token line, and it raises nothing; the run goes on to its end
    and writes the output file. *)
Lemma orphan_compound_line_does_not_raise :
  isdigit (B := ascii_builtins) (hd 0 compound_line) = true
  /\ ex initial = None
  /\ process_line (B := ascii_builtins) compound_line initial = Ok initial
  /\ (~ exists x, process_line (B := ascii_builtins) compound_line initial = Raise x)
  /\ get_examples_from_dataset (B := ascii_builtins) [compound_line] empty_world
     = (Ok tt, {| stdout := [Done]; output_file := Some [] |}).
Proof.
  repeat split.
  intros (x & Hx). vm_compute in Hx. discriminate.
Qed.

Lemma orphan_token_line_raises_unless_compound_witness :
  process_line (B := ascii_builtins) short_line initial = Raise (ValueError_unpack 8)
  /\ process_line (B := ascii_builtins) component_3 initial = Raise TypeError_NoneType
  /\ process_line (B := ascii_builtins) compound_line initial = Ok initial.
Proof.
  split; [| split].
  - refine (proj1 (orphan_token_line_raises_unless_compound (B := ascii_builtins)
                     49 (tl short_line) initial eq_refl eq_refl) _).
    vm_compute. discriminate.
  - exact (proj2 (orphan_token_line_raises_unless_compound (B := ascii_builtins)
                    51 (tl component_3) initial eq_refl eq_refl)
             _ _ _ _ _ _ _ _ _ _ eq_refl).
  - exact (proj2 (orphan_token_line_raises_unless_compound (B := ascii_builtins)
                    51 (tl compound_line) initial eq_refl eq_refl)
             _ _ _ _ _ _ _ _ _ _ eq_refl).
Defined.

(** ** What a line can change *)

Section Frame.
Context {B : Builtins}.

Lemma process_line_blank_open (st : state) (e : Example) :
  ex st = Some e -> process_line blank st = Ok (finalize st e).
Proof.
  intros He. rewrite process_line_blank, He. unfold finalize.
  destruct (has_chinese_char e); reflexivity.
Qed.

Lemma process_line_blank_idle (st : state) :
  ex st = None -> process_line blank st = Ok st.
Proof. intros He. rewrite process_line_blank, He. reflexivity. Qed.

(** A line other than the blank line reads and writes the open record
    only: the counter and the accepted records pass through. *)
Lemma process_line_nonblank (line : str) (st : state) :
  is_blank line = false ->
  process_line line st =
  (s <- process_line line (set_ex initial (ex st)) ;; Ok (set_ex st (ex s))).
Proof.
  unfold is_blank. intros Hb. unfold process_line. rewrite Hb.
  destruct line as [|c0 r]; [reflexivity |].
  destruct (c0 =? HASH).
  - destruct (negb (str_eqb (slice 2 6 (c0 :: r)) (lit "text"))); simpl;
      [reflexivity | now rewrite set_ex_same].
  - destruct (isdigit c0); simpl; [| now rewrite set_ex_same].
    destruct (get_word_data (c0 :: r) (ex st)); reflexivity.
Qed.

Lemma run_lines_nonblank (lines : list str) (st : state) :
  no_blank lines = true ->
  run_lines lines st =
  (s <- run_lines lines (set_ex initial (ex st)) ;; Ok (set_ex st (ex s))).
Proof.
  revert st; induction lines as [|l lines IH]; intros st; simpl.
  - intros _. now rewrite set_ex_same.
  - rewrite andb_true_iff, negb_true_iff. intros [Hl Hrest].
    rewrite (process_line_nonblank l st Hl).
    destruct (process_line l (set_ex initial (ex st))) as [s1 | x]; simpl;
      [| reflexivity].
    rewrite (IH (set_ex st (ex s1)) Hrest), (IH s1 Hrest). simpl.
    destruct (run_lines lines (set_ex initial (ex s1))); reflexivity.
Qed.

Lemma run_lines_nonblank_ok (lines : list str) (st st' : state) :
  no_blank lines = true ->
  run_lines lines st = Ok st' ->
  st' = set_ex st (ex st').
Proof.
  intros Hn. rewrite (run_lines_nonblank _ _ Hn).
  destruct (run_lines lines (set_ex initial (ex st))) as [s | x]; simpl;
    [| discriminate].
  intros [= <-]. reflexivity.
Qed.

(** A record appears in the empty slot only through an identifier line. *)
Lemma process_line_creates (line : str) (st st' : state) :
  process_line line st = Ok st' ->
  ex st = None ->
  ex st' <> None ->
  opens_record line = true.
Proof.
  unfold process_line, opens_record. intros Hp He Hne.
  destruct (str_eqb line [LF]).
  - rewrite He in Hp. injection Hp as <-. congruence.
  - destruct line as [|c0 r]; [discriminate |].
    destruct (c0 =? HASH); simpl.
    + destruct (negb (str_eqb (slice 2 6 (c0 :: r)) (lit "text")));
        [reflexivity |].
      injection Hp as <-. congruence.
    + destruct (isdigit c0).
      * destruct (get_word_data (c0 :: r) (ex st)) as [ex1 | x] eqn:Hg;
          [| discriminate].
        simpl in Hp. injection Hp as <-. simpl in Hne.
        apply get_word_data_ok in Hg.
        destruct Hg as [-> | (e & _ & _ & _ & Hs & _)]; congruence.
      * injection Hp as <-. congruence.
Qed.

End Frame.

(** ** Records through the loop *)

Section Records.
Context {B : Builtins}.

(** C9. [has_chinese_char] reads ['words'] and nothing else: two records
    with the same [words] get the same answer whatever their [id],
    [heads] and [relns]; and the function writes nothing, so the record
    that the loop appends after the call is the record it passed to the
    call, field for field. *)
Theorem has_chinese_char_reads_words_only (e1 e2 : Example) :
  words e1 = words e2 ->
  has_chinese_char e1 = has_chinese_char e2
  /\ (forall st,
         ex st = Some e1 ->
         has_chinese_char e1 = false ->
         process_line blank st =
         Ok {| filtered_examples := filtered_examples st;
               preprocessed_dataset := preprocessed_dataset st ++ [e1];
               ex := None |}).
Proof.
  intros Hw. split.
  - unfold has_chinese_char. now rewrite Hw.
  - intros st He Hc. rewrite (process_line_blank_open _ _ He).
    unfold finalize. now rewrite Hc.
Qed.

(** C10. An identifier line met while a record is open replaces that
    record by a new, empty one; the counter and the accepted records are
    as before, and the rest of the run is what it would have been with
    no record open: the replaced record reaches neither the filter, nor
    the output, nor the counter. *)
Theorem identifier_line_replaces_open_record (line : str) (st : state) (e : Example) :
  ex st = Some e ->
  opens_record line = true ->
  process_line line st =
    Ok {| filtered_examples := filtered_examples st;
          preprocessed_dataset := preprocessed_dataset st;
          ex := Some {| ex_id := last (split SPACE (strip line)) [];
                        words := []; relns := []; heads := [] |} |}
  /\ (forall rest : list str,
         run_lines (line :: rest) st = run_lines (line :: rest) (set_ex st None)).
Proof.
  intros He Ho. split.
  - now rewrite (process_line_opens _ _ Ho).
  - intros rest. simpl. now rewrite !(process_line_opens _ _ Ho).
Qed.

Lemma aligned_append (e : Example) (word reln : str) (h : Z) :
  aligned e -> aligned (append_token e word reln h).
Proof.
  unfold aligned, append_token; simpl. rewrite !length_app; simpl. lia.
Qed.

Lemma aligned_new (line : str) : aligned (new_example line).
Proof. now split. Qed.

Lemma state_aligned_initial : state_aligned initial.
Proof. split; [constructor | discriminate]. Qed.

Lemma process_line_aligned (line : str) (st st' : state) :
  state_aligned st -> process_line line st = Ok st' -> state_aligned st'.
Proof.
  intros [Hd Ho]. unfold process_line.
  destruct (str_eqb line [LF]).
  - destruct (ex st) as [e|] eqn:He.
    + destruct (negb (has_chinese_char e)); intros [= <-]; split; simpl;
        try discriminate; [| assumption].
      apply Forall_app. split; [assumption |]. constructor; [now apply Ho | constructor].
    + intros [= <-]. split; [assumption | now rewrite He].
  - destruct line as [|c0 r]; [discriminate |].
    destruct (c0 =? HASH).
    + destruct (negb (str_eqb (slice 2 6 (c0 :: r)) (lit "text")));
        intros [= <-]; [| now split].
      split; [assumption |]. simpl. intros e [= <-]. apply aligned_new.
    + destruct (isdigit c0); [| intros [= <-]; now split].
      destruct (get_word_data (c0 :: r) (ex st)) as [ex1 | x] eqn:Hg;
        [| discriminate].
      simpl. intros [= <-]. split; [assumption |]. simpl.
      apply get_word_data_ok in Hg.
      destruct Hg as [-> | (e & word & reln & h & He & ->)]; [assumption |].
      intros e' [= <-]. apply aligned_append. now apply Ho.
Qed.

Lemma run_lines_aligned (lines : list str) (st st' : state) :
  state_aligned st -> run_lines lines st = Ok st' -> state_aligned st'.
Proof.
  revert st; induction lines as [|l lines IH]; intros st Hs; simpl.
  - now intros [= <-].
  - destruct (process_line l st) as [s1 | x] eqn:Hp; [| discriminate].
    simpl. apply IH. exact (process_line_aligned _ _ _ Hs Hp).
Qed.

(** C3. However far the loop has come without raising, the accepted
    records and the open record have [words], [heads] and [relns] of
    one length; so has every record at the blank line that finalizes
    it, and every record of the written file.  The reason is the one
    this: a call of [get_word_data] that returns leaves the
    record alone or adds one element to each sequence. *)
Theorem alignment_invariant (lines : list str) (st : state) :
  run_lines lines initial = Ok st ->
  Forall aligned (preprocessed_dataset st)
  /\ (forall e, ex st = Some e -> aligned e)
  /\ (forall w w', get_examples_from_dataset lines w = (Ok tt, w') ->
        exists d, output_file w' = Some d /\ Forall aligned d)
  /\ (forall line e ex1,
        get_word_data line (Some e) = Ok ex1 ->
        ex1 = Some e \/
        exists word reln h,
          ex1 = Some {| ex_id := ex_id e;
                        words := words e ++ [word];
                        relns := relns e ++ [reln];
                        heads := heads e ++ [h] |}).
Proof.
  intros Hr.
  destruct (run_lines_aligned _ _ _ state_aligned_initial Hr) as [Hd Ho].
  split; [exact Hd | split; [exact Ho | split]].
  - intros w w'. unfold get_examples_from_dataset. rewrite Hr.
    intros [= <-]. simpl. now exists (preprocessed_dataset st).
  - intros line e ex1 Hg. apply get_word_data_ok in Hg.
    destruct Hg as [-> | (e0 & word & reln & h & [= <-] & ->)]; [now left |].
    right. now exists word, reln, h.
Qed.

End Records.

Lemma has_chinese_char_reads_words_only_witness :
  has_chinese_char record_s1 =
  has_chinese_char {| ex_id := lit "other"; words := words record_s1;
                      relns := []; heads := [7] |}.
Proof.
  exact (proj1 (has_chinese_char_reads_words_only (B := ascii_builtins)
                  record_s1
                  {| ex_id := lit "other"; words := words record_s1;
                     relns := []; heads := [7] |}
                  eq_refl)).
Defined.

Lemma identifier_line_replaces_open_record_witness :
  process_line (B := ascii_builtins) (lit "# sent_id = s2" ++ [LF])
    {| filtered_examples := 0; preprocessed_dataset := []; ex := Some record_s1 |}
  = Ok {| filtered_examples := 0; preprocessed_dataset := [];
          ex := Some {| ex_id := lit "s2"; words := []; relns := [];
                        heads := [] |} |}.
Proof.
  exact (proj1 (identifier_line_replaces_open_record (B := ascii_builtins)
                  (lit "# sent_id = s2" ++ [LF])
                  {| filtered_examples := 0; preprocessed_dataset := [];
                     ex := Some record_s1 |}
                  record_s1 eq_refl eq_refl)).
Defined.

Lemma alignment_invariant_witness :
  Forall aligned [record_s1] /\ aligned record_s2.
Proof.
  pose proof (alignment_invariant (B := ascii_builtins) end_to_end
                {| filtered_examples := 0; preprocessed_dataset := [record_s1];
                   ex := Some record_s2 |} eq_refl)
    as (Hd & Ho & _).
  split; [exact Hd | exact (Ho record_s2 eq_refl)].
Defined.

(** ** Sentence boundaries *)

Section Boundaries.
Context {B : Builtins}.

Lemma finalize_set_ex (st : state) (o : option Example) (e : Example) :
  finalize (set_ex st o) e = finalize st e.
Proof. reflexivity. Qed.

Lemma ex_finalize (st : state) (e : Example) : ex (finalize st e) = None.
Proof. unfold finalize. now destruct (has_chinese_char e). Qed.

Lemma run_blanks_idle (k : nat) (rest : list str) (st : state) :
  ex st = None ->
  run_lines (repeat blank k ++ rest) st = run_lines rest st.
Proof.
  intros He. induction k as [|k IH]; simpl; [reflexivity |].
  rewrite (process_line_blank_idle _ He). exact IH.
Qed.

Lemma run_blanks_open (k : nat) (rest : list str) (st : state) (e : Example) :
  ex st = Some e ->
  (1 <= k)%nat ->
  run_lines (repeat blank k ++ rest) st = run_lines rest (finalize st e).
Proof.
  intros He Hk. destruct k as [|k]; [lia |]. simpl.
  rewrite (process_line_blank_open _ _ He). simpl.
  apply run_blanks_idle, ex_finalize.
Qed.

(** A block run from a state with no record open. *)
Lemma run_block (b : list str) (st : state) (e : Example) :
  no_blank b = true ->
  run_lines b initial = Ok (set_ex initial (Some e)) ->
  ex st = None ->
  run_lines b st = Ok (set_ex st (Some e)).
Proof.
  intros Hn Hb He. rewrite (run_lines_nonblank _ _ Hn), He.
  change (set_ex initial None) with initial. rewrite Hb. reflexivity.
Qed.

Lemma finalized_finalize (st : state) (e : Example) :
  finalized (finalize st e) = finalized st + 1.
Proof.
  unfold finalized, finalize. destruct (has_chinese_char e); simpl; [lia |].
  rewrite length_app. simpl. lia.
Qed.

(** C5, as the code has it. Two sentence blocks (lines without a blank
    one, each leaving a record open when run on its own) separated by
    [k >= 1] blank lines, one as well as three: when blank lines follow
    the second block, exactly two records are finalized, the two of the
    blocks; when the stream ends with the second block, exactly one is,
    the first, and the second is left open.  A blank line met while no
    record is open leaves the state as it is. *)
Theorem two_blocks_and_their_blank_lines
    (b1 b2 : list str) (e1 e2 : Example) (k : nat) :
  no_blank b1 = true ->
  no_blank b2 = true ->
  run_lines b1 initial =
    Ok {| filtered_examples := 0; preprocessed_dataset := []; ex := Some e1 |} ->
  run_lines b2 initial =
    Ok {| filtered_examples := 0; preprocessed_dataset := []; ex := Some e2 |} ->
  (1 <= k)%nat ->
  (forall j, (1 <= j)%nat ->
     run_lines (b1 ++ repeat blank k ++ b2 ++ repeat blank j) initial =
     Ok (finalize (finalize initial e1) e2))
  /\ finalized (finalize (finalize initial e1) e2) = 2
  /\ run_lines (b1 ++ repeat blank k ++ b2) initial =
     Ok {| filtered_examples := filtered_examples (finalize initial e1);
           preprocessed_dataset := preprocessed_dataset (finalize initial e1);
           ex := Some e2 |}
  /\ finalized {| filtered_examples := filtered_examples (finalize initial e1);
                  preprocessed_dataset := preprocessed_dataset (finalize initial e1);
                  ex := Some e2 |} = 1
  /\ (forall st, ex st = None -> process_line blank st = Ok st).
Proof.
  intros Hn1 Hn2 Hb1 Hb2 Hk.
  assert (forall rest,
            run_lines (b1 ++ repeat blank k ++ b2 ++ rest) initial =
            run_lines rest (set_ex (finalize initial e1) (Some e2))) as Hrun.
  { intros rest. rewrite run_lines_app, Hb1. cbn [bind].
    rewrite (run_blanks_open k _ (set_ex initial (Some e1)) e1 eq_refl Hk).
    rewrite run_lines_app.
    rewrite (run_block b2 _ e2 Hn2 Hb2 (ex_finalize _ _)). reflexivity. }
  split; [| split; [| split; [| split]]].
  - intros j Hj. rewrite Hrun. rewrite <- (app_nil_r (repeat blank j)).
    rewrite (run_blanks_open j [] (set_ex (finalize initial e1) (Some e2)) e2
               eq_refl Hj).
    reflexivity.
  - rewrite !finalized_finalize. reflexivity.
  - rewrite <- (app_nil_r b2), Hrun. reflexivity.
  - change (finalized (finalize initial e1) = 1).
    rewrite finalized_finalize. reflexivity.
  - intros st. apply process_line_blank_idle.
Qed.

End Boundaries.

(** C5, as stated, fails: the two blocks of the end-to-end input are
    complete sentence blocks, and separated by one blank line, or by
    three, they give one finalized record, not two, when no blank line
    follows the second. *)
Lemma two_blocks_without_final_blank_line :
  no_blank block_s1 = true
  /\ no_blank block_s2 = true
  /\ run_lines (B := ascii_builtins) block_s1 initial
     = Ok {| filtered_examples := 0; preprocessed_dataset := [];
             ex := Some record_s1 |}
  /\ run_lines (B := ascii_builtins) block_s2 initial
     = Ok {| filtered_examples := 0; preprocessed_dataset := [];
             ex := Some record_s2 |}
  /\ (~ exists st,
         run_lines (B := ascii_builtins) (block_s1 ++ [blank] ++ block_s2) initial
         = Ok st /\ finalized st = 2)
  /\ (~ exists st,
         run_lines (B := ascii_builtins)
           (block_s1 ++ [blank; blank; blank] ++ block_s2) initial
         = Ok st /\ finalized st = 2).
Proof.
  repeat split.
  - intros (st & Hr & Hf). vm_compute in Hr. injection Hr as <-. discriminate.
  - intros (st & Hr & Hf). vm_compute in Hr. injection Hr as <-. discriminate.
Qed.

Lemma two_blocks_and_their_blank_lines_witness :
  run_lines (B := ascii_builtins) (block_s1 ++ [blank] ++ block_s2 ++ [blank]) initial
  = Ok {| filtered_examples := 1; preprocessed_dataset := [record_s1]; ex := None |}
  /\ run_lines (B := ascii_builtins)
       (block_s1 ++ [blank; blank; blank] ++ block_s2 ++ [blank]) initial
     = Ok {| filtered_examples := 1; preprocessed_dataset := [record_s1]; ex := None |}
  /\ run_lines (B := ascii_builtins)
       (block_s1 ++ [blank; blank; blank] ++ block_s2) initial
     = Ok {| filtered_examples := 0; preprocessed_dataset := [record_s1];
             ex := Some record_s2 |}.
Proof.
  split; [| split].
  - exact (proj1 (two_blocks_and_their_blank_lines (B := ascii_builtins)
                    block_s1 block_s2 record_s1 record_s2 1
                    eq_refl eq_refl eq_refl eq_refl (le_n 1))
             1%nat (le_n 1)).
  - exact (proj1 (two_blocks_and_their_blank_lines (B := ascii_builtins)
                    block_s1 block_s2 record_s1 record_s2 3
                    eq_refl eq_refl eq_refl eq_refl
                    (le_S _ _ (le_S _ _ (le_n 1))))
             1%nat (le_n 1)).
  - exact (proj1 (proj2 (proj2
             (two_blocks_and_their_blank_lines (B := ascii_builtins)
                block_s1 block_s2 record_s1 record_s2 3
                eq_refl eq_refl eq_refl eq_refl
                (le_S _ _ (le_S _ _ (le_n 1))))))).
Defined.

(** ** The end of the stream *)

(** C1, as stated, fails on the end-to-end input of the specification.
    When the lines are exhausted the record of s2 is open, and it
    contains an ideograph; it is not passed to the filter: the counter
    is 0, not 1, and no filtered count is printed.  The same holds when
    the last line has no line terminator. *)
Lemma end_to_end_last_record_not_finalized :
  run_lines (B := ascii_builtins) end_to_end initial
    = Ok {| filtered_examples := 0; preprocessed_dataset := [record_s1];
            ex := Some record_s2 |}
  /\ has_chinese_char record_s2 = true
  /\ get_examples_from_dataset (B := ascii_builtins) end_to_end empty_world
     = (Ok tt, {| stdout := [Done]; output_file := Some [record_s1] |})
  /\ (~ exists st, run_lines (B := ascii_builtins) end_to_end initial = Ok st
                   /\ filtered_examples st = 1)
  /\ get_examples_from_dataset (B := ascii_builtins) end_to_end_unterminated empty_world
     = (Ok tt, {| stdout := [Done]; output_file := Some [record_s1] |}).
Proof.
  repeat split.
  intros (st & Hr & Hf). vm_compute in Hr. injection Hr as <-. discriminate.
Qed.

(** C1, as the code has it. A record is finalized by a blank line only.
    Lines that follow the last blank line change neither the accepted
    records nor the counter, so the function prints and writes what it
    would without them: a record still open at the end of the stream is
    dropped.  One more blank line would have finalized it.  On the
    end-to-end input the file holds the record of s1 and no filtered
    count is printed; with a final blank line the count 1 is printed. *)
Theorem open_record_at_end_of_stream_is_dropped {B : Builtins}
    (lines tail : list str) (st st' : state) :
  run_lines lines initial = Ok st ->
  no_blank tail = true ->
  run_lines tail st = Ok st' ->
  (forall w, get_examples_from_dataset (lines ++ tail) w
             = get_examples_from_dataset lines w)
  /\ preprocessed_dataset st' = preprocessed_dataset st
  /\ filtered_examples st' = filtered_examples st
  /\ (forall e, ex st' = Some e ->
        run_lines (lines ++ tail ++ [blank]) initial = Ok (finalize st e))
  /\ get_examples_from_dataset (B := ascii_builtins) end_to_end empty_world
     = (Ok tt, {| stdout := [Done]; output_file := Some [record_s1] |})
  /\ get_examples_from_dataset (B := ascii_builtins) (end_to_end ++ [blank]) empty_world
     = (Ok tt, {| stdout := [Filtered 1; Done]; output_file := Some [record_s1] |}).
Proof.
  intros Hl Hn Ht.
  pose proof (run_lines_nonblank_ok _ _ _ Hn Ht) as Hst'.
  assert (run_lines (lines ++ tail) initial = Ok st') as Hall
    by (rewrite run_lines_app, Hl; exact Ht).
  split; [| split; [| split; [| split; [| split]]]]; try reflexivity.
  - intros w. unfold get_examples_from_dataset. rewrite Hall, Hl, Hst'.
    reflexivity.
  - now rewrite Hst'.
  - now rewrite Hst'.
  - intros e He. rewrite app_assoc, run_lines_app, Hall. cbn [bind run_lines].
    rewrite (process_line_blank_open _ _ He). cbn [bind].
    rewrite Hst'. reflexivity.
Qed.

Lemma open_record_at_end_of_stream_is_dropped_witness :
  get_examples_from_dataset (B := ascii_builtins)
    ((block_s1 ++ [blank]) ++ block_s2) empty_world
  = get_examples_from_dataset (B := ascii_builtins) (block_s1 ++ [blank]) empty_world.
Proof.
  exact (proj1 (open_record_at_end_of_stream_is_dropped (B := ascii_builtins)
                  (block_s1 ++ [blank]) block_s2
                  {| filtered_examples := 0; preprocessed_dataset := [record_s1];
                     ex := None |}
                  {| filtered_examples := 0; preprocessed_dataset := [record_s1];
                     ex := Some record_s2 |}
                  eq_refl eq_refl eq_refl)
           empty_world).
Defined.

(** ** Stripping and splitting *)

Lemma split_by_not_nil (p : Z -> bool) (s : str) : split_by p s <> [].
Proof.
  destruct s as [|c s]; simpl; [discriminate |].
  destruct (p c); [discriminate |].
  destruct (split_by p s); discriminate.
Qed.

Lemma split_by_ext (p q : Z -> bool) (s : str) :
  (forall c, In c s -> p c = q c) -> split_by p s = split_by q s.
Proof.
  induction s as [|c s IH]; intros Hpq; simpl; [reflexivity |].
  rewrite <- (Hpq c (or_introl eq_refl)).
  rewrite IH by (intros d Hd; apply Hpq; now right).
  reflexivity.
Qed.

(** The fields of a string extended by a character that does not
    separate: the last field gets the character. *)
Lemma split_by_snoc (p : Z -> bool) (a : str) (c : Z) :
  p c = false ->
  split_by p (a ++ [c]) =
  removelast (split_by p a) ++ [last (split_by p a) [] ++ [c]].
Proof.
  intros Hc. induction a as [|x a IH]; simpl.
  - now rewrite Hc.
  - rewrite IH. pose proof (split_by_not_nil p a) as Hne.
    destruct (split_by p a) as [|f0 [|g gs]]; [congruence | |];
      destruct (p x); reflexivity.
Qed.

(** Separators in front add empty fields only. *)
Lemma split_by_sep_front (p : Z -> bool) (lead s : str) :
  Forall (fun c => p c = true) lead ->
  filter nonempty (split_by p (lead ++ s)) = filter nonempty (split_by p s).
Proof.
  induction 1 as [|w lead Hw _ IH]; simpl; [reflexivity |].
  now rewrite Hw.
Qed.

Lemma split_by_app_sep (p : Z -> bool) (x y : str) (w : Z) :
  p w = true ->
  split_by p (x ++ w :: y) = split_by p x ++ split_by p y.
Proof.
  intros Hw. induction x as [|c x IH]; simpl.
  - now rewrite Hw.
  - rewrite IH. pose proof (split_by_not_nil p x) as Hne.
    destruct (p c); [reflexivity |].
    destruct (split_by p x); [congruence | reflexivity].
Qed.

(** Separators at the end add empty fields only. *)
Lemma split_by_sep_back (p : Z -> bool) (s trail : str) :
  Forall (fun c => p c = true) trail ->
  filter nonempty (split_by p (s ++ trail)) = filter nonempty (split_by p s).
Proof.
  intros Ht. destruct trail as [|w trail]; [now rewrite app_nil_r |].
  inversion Ht as [|? ? Hw Ht']; subst.
  rewrite (split_by_app_sep _ _ _ _ Hw), filter_app.
  rewrite <- (app_nil_r trail), (split_by_sep_front p trail [] Ht'). simpl.
  now rewrite app_nil_r.
Qed.

Lemma lstrip_decompose (s : str) :
  exists lead, Forall (fun c => isspace c = true) lead /\ s = lead ++ lstrip s.
Proof.
  induction s as [|c s (lead & Hl & E)]; simpl.
  - now exists [].
  - destruct (isspace c) eqn:Hc.
    + exists (c :: lead). split; [now constructor | simpl; congruence].
    + now exists [].
Qed.

Lemma rstrip_decompose (s : str) :
  exists trail, Forall (fun c => isspace c = true) trail /\ s = rstrip s ++ trail.
Proof.
  destruct (lstrip_decompose (rev s)) as (lead & Hl & E).
  exists (rev lead). split; [now apply Forall_rev |].
  unfold rstrip. rewrite <- rev_app_distr, <- E. now rewrite rev_involutive.
Qed.

Lemma lstrip_head (s : str) :
  lstrip s = [] \/ exists c t, lstrip s = c :: t /\ isspace c = false.
Proof.
  induction s as [|c s IH]; simpl; [now left |].
  destruct (isspace c) eqn:Hc; [exact IH |].
  right. now exists c, s.
Qed.

Lemma lstrip_snoc (a : str) (c : Z) :
  isspace c = false -> lstrip (a ++ [c]) = lstrip a ++ [c].
Proof.
  intros Hc. induction a as [|x a IH]; simpl.
  - now rewrite Hc.
  - destruct (isspace x); [exact IH | reflexivity].
Qed.

(** A stripped string is empty or ends with a character that is not
    whitespace. *)
Lemma strip_end (s : str) :
  strip s = [] \/ exists t c, strip s = t ++ [c] /\ isspace c = false.
Proof.
  unfold strip, rstrip.
  destruct (lstrip_head (rev s)) as [-> | (c & t & -> & Hc)]; [now left |].
  right. exists (lstrip (rev t)), c. simpl. split; [| assumption].
  now apply lstrip_snoc.
Qed.

Lemma rstrip_chomp (s : str) : rstrip (chomp s) = rstrip s.
Proof.
  unfold chomp, rstrip. destruct (rev s) as [|c r] eqn:E; [now rewrite E |].
  destruct (Z.eqb_spec c LF) as [-> | Hne]; [| now rewrite E].
  now rewrite rev_involutive.
Qed.

Lemma split_whitespace_strip (s : str) :
  split_whitespace (strip s) = split_whitespace s.
Proof.
  unfold split_whitespace, strip.
  destruct (rstrip_decompose s) as (trail & Ht & Es).
  destruct (lstrip_decompose (rstrip s)) as (lead & Hl & Er).
  rewrite Es at 2. rewrite (split_by_sep_back _ _ _ Ht).
  rewrite Er at 2. now rewrite (split_by_sep_front _ _ _ Hl).
Qed.

(** The identifier of the code and the identifier of the specification
    agree on a line whose only inner whitespace is the space. *)
Lemma split_whitespace_chomp (line : str) :
  split_whitespace (chomp line) = split_whitespace (strip line).
Proof.
  rewrite <- (split_whitespace_strip (chomp line)).
  unfold strip. now rewrite rstrip_chomp.
Qed.

Lemma filter_nonempty_snoc (fs : list str) (f : str) (c : Z) :
  last (filter nonempty (fs ++ [f ++ [c]])) [] = f ++ [c].
Proof.
  rewrite filter_app. simpl.
  replace (nonempty (f ++ [c])) with true by now destruct f.
  apply last_last.
Qed.

Lemma new_example_id_spec (line : str) :
  (forall c, In c (strip line) -> isspace c = true -> c = SPACE) ->
  ex_id (new_example line) = spec_id line.
Proof.
  intros Hsp. unfold spec_id, new_example, split; simpl.
  rewrite split_whitespace_chomp.
  destruct (strip_end line) as [-> | (t & c & E & Hc)]; [reflexivity |].
  rewrite E in *. unfold split_whitespace.
  assert ((c =? SPACE) = false) as Hc'.
  { apply Z.eqb_neq. intros ->. discriminate. }
  assert (split_by isspace t = split_by (fun d => d =? SPACE) t) as Ht.
  { apply split_by_ext. intros d Hd. destruct (isspace d) eqn:Hsd.
    - rewrite (Hsp d); [reflexivity | apply in_or_app; now left | assumption].
    - symmetry. apply Z.eqb_neq. intros ->. discriminate. }
  rewrite (split_by_snoc isspace t c Hc), filter_nonempty_snoc, Ht.
  rewrite (split_by_snoc _ t c Hc'). apply last_last.
Qed.

(** ** Comment lines *)

(** A line that does not open a record keeps the identifier of the open
    one. *)
Lemma process_line_keeps_id {B : Builtins} (line : str) (st st' : state)
    (e e' : Example) :
  process_line line st = Ok st' ->
  ex st = Some e ->
  ex st' = Some e' ->
  opens_record line = false ->
  ex_id e' = ex_id e.
Proof.
  unfold process_line, opens_record. intros Hp He He' Ho.
  destruct (str_eqb line [LF]).
  - rewrite He in Hp. destruct (negb (has_chinese_char e));
      injection Hp as <-; discriminate.
  - destruct line as [|c0 r]; [discriminate |].
    destruct (c0 =? HASH); simpl in Ho.
    + rewrite Ho in Hp. injection Hp as <-. congruence.
    + destruct (isdigit c0); [| injection Hp as <-; congruence].
      destruct (get_word_data (c0 :: r) (ex st)) as [ex1 | x] eqn:Hg;
        [| discriminate].
      simpl in Hp. injection Hp as <-. simpl in He'. subst ex1.
      apply get_word_data_ok in Hg.
      destruct Hg as [Hs | (e0 & word & reln & h & Hs & [= ->])]; [congruence |].
      simpl. congruence.
Qed.

(** C7, as stated, fails on an identifier line with a tab in front of
    the identifier: the code cuts the stripped line at spaces only, so
    the identifier keeps the tab and what precedes it, while the final
    whitespace-separated field is the identifier alone. *)
Lemma identifier_after_tab_is_not_last_whitespace_field :
  opens_record tab_id_line = true
  /\ process_line (B := ascii_builtins) tab_id_line initial
     = Ok {| filtered_examples := 0; preprocessed_dataset := [];
             ex := Some {| ex_id := lit "=" ++ [TAB] ++ lit "s1";
                           words := []; relns := []; heads := [] |} |}
  /\ spec_id tab_id_line = lit "s1"
  /\ ex_id (new_example tab_id_line) <> spec_id tab_id_line.
Proof.
  repeat split. vm_compute. discriminate.
Qed.

(** C7, as the code has it. A comment line whose characters 2 to 5 are
    "text" changes nothing.  Any other comment line opens a record with
    empty [words], [relns] and [heads], whose [id] is the last of the
    fields that the single space separates in the stripped line; no
    other line puts a record in the empty slot or changes the
    identifier of the open one.  That [id] is the final
    whitespace-separated field of the line whenever the stripped line
    has no whitespace but spaces. *)
Theorem comment_line_ignored_or_opens_record {B : Builtins} (r : str) (st : state) :
  (slice 2 6 (HASH :: r) = lit "text" -> process_line (HASH :: r) st = Ok st)
  /\ (slice 2 6 (HASH :: r) <> lit "text" ->
      process_line (HASH :: r) st =
      Ok {| filtered_examples := filtered_examples st;
            preprocessed_dataset := preprocessed_dataset st;
            ex := Some {| ex_id := last (split SPACE (strip (HASH :: r))) [];
                          words := []; relns := []; heads := [] |} |})
  /\ (forall line s s',
        process_line line s = Ok s' -> ex s = None -> ex s' <> None ->
        exists r', line = HASH :: r' /\ slice 2 6 line <> lit "text")
  /\ (forall line s s' e e',
        process_line line s = Ok s' -> ex s = Some e -> ex s' = Some e' ->
        ex_id e' = ex_id e
        \/ exists r', line = HASH :: r' /\ slice 2 6 line <> lit "text")
  /\ ((forall c, In c (strip (HASH :: r)) -> isspace c = true -> c = SPACE) ->
      last (split SPACE (strip (HASH :: r))) [] = spec_id (HASH :: r)).
Proof.
  split; [| split; [| split; [| split]]].
  - intros Ht. rewrite process_line_comment, Ht, str_eqb_refl. reflexivity.
  - intros Ht. apply str_eqb_neq in Ht.
    rewrite process_line_comment, Ht. reflexivity.
  - intros line s s' Hp Hs Hs'.
    destruct (opens_record_inv _ (process_line_creates _ _ _ Hp Hs Hs'))
      as (r' & -> & Ht).
    exists r'. split; [reflexivity | now apply str_eqb_neq].
  - intros line s s' e e' Hp Hs Hs'.
    destruct (opens_record line) eqn:Ho.
    + right. destruct (opens_record_inv _ Ho) as (r' & -> & Ht).
      exists r'. split; [reflexivity | now apply str_eqb_neq].
    + left. exact (process_line_keeps_id _ _ _ _ _ Hp Hs Hs' Ho).
  - intros Hsp. exact (new_example_id_spec _ Hsp).
Qed.

Lemma comment_line_ignored_or_opens_record_witness :
  process_line (B := ascii_builtins) (lit "# text = Hola mundo" ++ [LF]) initial
    = Ok initial
  /\ process_line (B := ascii_builtins) (lit "# sent_id = s1" ++ [LF]) initial
     = Ok {| filtered_examples := 0; preprocessed_dataset := [];
             ex := Some {| ex_id := lit "s1"; words := []; relns := [];
                           heads := [] |} |}
  /\ lit "s1" = spec_id (lit "# sent_id = s1" ++ [LF]).
Proof.
  split; [| split].
  - exact (proj1 (comment_line_ignored_or_opens_record (B := ascii_builtins)
                    (lit " text = Hola mundo" ++ [LF]) initial) eq_refl).
  - refine (proj1 (proj2 (comment_line_ignored_or_opens_record (B := ascii_builtins)
                            (lit " sent_id = s1" ++ [LF]) initial)) _).
    vm_compute. discriminate.
  - refine (proj2 (proj2 (proj2 (proj2
              (comment_line_ignored_or_opens_record (B := ascii_builtins)
                 (lit " sent_id = s1" ++ [LF]) initial)))) _).
    vm_compute. intros c Hc Hs.
    repeat (destruct Hc as [<- | Hc]; [try reflexivity; discriminate Hs |]).
    destruct Hc.
Defined.

(** * Further properties of the loop *)

Section Accepted.
Context {B : Builtins}.




(** A step from any state is the step from the initial counter and
    output, continued. *)
Lemma process_line_continued (line : str) (st : state) :
  process_line line st =
  (s <- process_line line (set_ex initial (ex st)) ;; Ok (continued st s)).
Proof.
  destruct (is_blank line) eqn:Hb.
  - apply str_eqb_eq in Hb. subst line. rewrite !process_line_blank.
    destruct st as [f d [e|]]; simpl.
    + destruct (has_chinese_char e); unfold continued; simpl;
        now rewrite ?Z.add_0_r, ?app_nil_r.
    + unfold continued; simpl. now rewrite Z.add_0_r, app_nil_r.
  - rewrite (process_line_nonblank _ _ Hb).
    rewrite (process_line_nonblank _ (set_ex initial (ex st)) Hb). simpl.
    destruct (process_line line (set_ex initial (ex st))) as [s | x]; simpl;
      [| reflexivity].
    destruct st as [f d o]; unfold continued, set_ex; simpl.
    now rewrite Z.add_0_r, app_nil_r.
Qed.

Lemma continued_assoc (st s1 s2 : state) :
  continued (continued st s1) s2 = continued st (continued s1 s2).
Proof.
  unfold continued; simpl. now rewrite Z.add_assoc, app_assoc.
Qed.

Lemma run_lines_continued (lines : list str) (st : state) :
  run_lines lines st =
  (s <- run_lines lines (set_ex initial (ex st)) ;; Ok (continued st s)).
Proof.
  revert st; induction lines as [|l lines IH]; intros st; simpl.
  - destruct st as [f d o]; unfold continued; simpl.
    now rewrite Z.add_0_r, app_nil_r.
  - rewrite (process_line_continued l st).
    destruct (process_line l (set_ex initial (ex st))) as [s1 | x]; simpl;
      [| reflexivity].
    rewrite (IH (continued st s1)), (IH s1). simpl.
    destruct (run_lines lines (set_ex initial (ex s1))) as [s | x]; simpl;
      [| reflexivity].
    now rewrite continued_assoc.
Qed.

Lemma process_line_counter (line : str) (st st' : state) :
  process_line line st = Ok st' -> filtered_examples st <= filtered_examples st'.
Proof.
  destruct (is_blank line) eqn:Hb.
  - apply str_eqb_eq in Hb. subst line. rewrite process_line_blank.
    destruct (ex st) as [e|]; [| intros [= <-]; lia].
    destruct (has_chinese_char e); intros [= <-]; simpl; lia.
  - rewrite (process_line_nonblank _ _ Hb).
    destruct (process_line line (set_ex initial (ex st))); [| discriminate].
    intros [= <-]. simpl. lia.
Qed.

Lemma run_lines_counter (lines : list str) (st st' : state) :
  run_lines lines st = Ok st' -> filtered_examples st <= filtered_examples st'.
Proof.
  revert st; induction lines as [|l lines IH]; intros st; simpl.
  - intros [= <-]. lia.
  - destruct (process_line l st) as [s1 | x] eqn:Hp; [| discriminate].
    simpl. intros Hr. apply process_line_counter in Hp. apply IH in Hr. lia.
Qed.

(** X2. The loop only ever appends to the output sequence and only ever
    adds to the counter: after any further lines the records accepted
    so far are still there, in front and in the same order, and the
    counter is not smaller. *)
Theorem output_is_append_only (lines : list str) (st st' : state) :
  run_lines lines st = Ok st' ->
  (exists more, preprocessed_dataset st' = preprocessed_dataset st ++ more)
  /\ filtered_examples st <= filtered_examples st'.
Proof.
  intros Hr. split; [| exact (run_lines_counter _ _ _ Hr)].
  rewrite run_lines_continued in Hr.
  destruct (run_lines lines (set_ex initial (ex st))) as [s | x]; [| discriminate].
  injection Hr as <-. now exists (preprocessed_dataset s).
Qed.

(** X3. Streams compose: when the first stream leaves no record open
    (it ends with a blank line), the run of the two streams one after
    the other is the run of the second on its own with the records of
    the first in front and its count added, and it raises exactly when
    the second raises on its own. *)
Theorem concatenated_streams (a b : list str) (sa : state) :
  run_lines a initial = Ok sa ->
  ex sa = None ->
  run_lines (a ++ b) initial =
  match run_lines b initial with
  | Ok sb =>
      Ok {| filtered_examples := filtered_examples sa + filtered_examples sb;
            preprocessed_dataset := preprocessed_dataset sa ++ preprocessed_dataset sb;
            ex := ex sb |}
  | Raise x => Raise x
  end.
Proof.
  intros Ha He. rewrite run_lines_app, Ha. cbn [bind].
  rewrite run_lines_continued, He. change (set_ex initial None) with initial.
  destruct (run_lines b initial); reflexivity.
Qed.

End Accepted.


Lemma output_is_append_only_witness :
  (exists more, [record_s1] = [] ++ more) /\ 0 <= 1.
Proof.
  exact (output_is_append_only (B := ascii_builtins) (end_to_end ++ [blank]) initial
           {| filtered_examples := 1; preprocessed_dataset := [record_s1];
              ex := None |}
           eq_refl).
Defined.

Lemma concatenated_streams_witness :
  run_lines (B := ascii_builtins) ((block_s1 ++ [blank]) ++ (block_s2 ++ [blank])) initial
  = Ok {| filtered_examples := 1; preprocessed_dataset := [record_s1]; ex := None |}.
Proof.
  exact (concatenated_streams (B := ascii_builtins)
           (block_s1 ++ [blank]) (block_s2 ++ [blank])
           {| filtered_examples := 0; preprocessed_dataset := [record_s1];
              ex := None |}
           eq_refl eq_refl).
Defined.

Section Counting.
Context {B : Builtins}.

Lemma finalized_nonblank (line : str) (st st' : state) :
  is_blank line = false ->
  process_line line st = Ok st' ->
  finalized st' = finalized st.
Proof.
  intros Hb. rewrite (process_line_nonblank _ _ Hb).
  destruct (process_line line (set_ex initial (ex st))); [| discriminate].
  now intros [= <-].
Qed.

(** A line other than an identifier line does not fill the empty slot. *)
Lemma open_records_step (line : str) (st st' : state) :
  process_line line st = Ok st' ->
  open_records st' <= open_records st + (if opens_record line then 1 else 0).
Proof.
  intros Hp. unfold open_records.
  destruct (ex st') as [e'|] eqn:He'; [| destruct (ex st), (opens_record line); lia].
  destruct (ex st) as [e|] eqn:He; [destruct (opens_record line); lia |].
  rewrite (process_line_creates _ _ _ Hp He); [lia | congruence].
Qed.

Lemma count_lines_cons (p : str -> bool) (l : str) (lines : list str) :
  count_lines p (l :: lines) = (if p l then 1 else 0) + count_lines p lines.
Proof.
  unfold count_lines. cbn [filter]. destruct (p l); cbn [List.length]; lia.
Qed.

Lemma opens_record_not_blank (line : str) :
  opens_record line = true -> is_blank line = false.
Proof.
  intros Ho. destruct (opens_record_inv _ Ho) as (r & -> & _). reflexivity.
Qed.

Lemma run_lines_bounds (lines : list str) (st st' : state) :
  run_lines lines st = Ok st' ->
  finalized st' <= finalized st + count_lines is_blank lines
  /\ finalized st' + open_records st' <=
     finalized st + open_records st + count_lines opens_record lines.
Proof.
  revert st; induction lines as [|l lines IH]; intros st; simpl.
  - intros [= <-]. unfold count_lines; simpl. lia.
  - destruct (process_line l st) as [s1 | x] eqn:Hp; [| discriminate].
    simpl. intros Hr. destruct (IH _ Hr) as [H1 H2].
    rewrite !count_lines_cons.
    pose proof (open_records_step _ _ _ Hp) as Ho.
    destruct (is_blank l) eqn:Hb.
    + assert (opens_record l = false) as Hno.
      { destruct (opens_record l) eqn:E; [| reflexivity].
        apply opens_record_not_blank in E. congruence. }
      rewrite Hno in *. apply str_eqb_eq in Hb. subst l.
      rewrite process_line_blank in Hp. unfold open_records in *.
      destruct (ex st) as [e|] eqn:He.
      * assert (s1 = finalize st e) as ->
          by (unfold finalize; destruct (has_chinese_char e); congruence).
        rewrite finalized_finalize, ex_finalize in *. lia.
      * injection Hp as <-. rewrite He in *. lia.
    + rewrite (finalized_nonblank _ _ _ Hb Hp) in *. lia.
Qed.

(** X4. The number of finalized records (accepted plus filtered) never
    exceeds the number of blank lines read, and together with the open
    record it never exceeds the number of identifier lines read: the
    loop makes no record out of nothing. *)
Theorem records_bounded_by_lines (lines : list str) (st : state) :
  run_lines lines initial = Ok st ->
  0 <= filtered_examples st
  /\ finalized st <= count_lines is_blank lines
  /\ finalized st + open_records st <= count_lines opens_record lines.
Proof.
  intros Hr. destruct (run_lines_bounds _ _ _ Hr) as [H1 H2].
  pose proof (run_lines_counter _ _ _ Hr) as H0.
  change (finalized initial) with 0 in *.
  change (open_records initial) with 0 in *.
  change (filtered_examples initial) with 0 in *. lia.
Qed.

(** X5. A ten-field token line with a plain index whose head field
    [int] rejects raises the error of [int] when a record is open, and
    the run of a stream that reaches it ends there: nothing is printed
    and no file is written. *)
Theorem head_not_an_integer_aborts (c0 : Z) (r : str)
    (word_id word f2 f3 f4 f5 head reln f8 f9 : str) :
  isdigit c0 = true ->
  split TAB (strip (c0 :: r)) = [word_id; word; f2; f3; f4; f5; head; reln; f8; f9] ->
  contains DASH word_id = false ->
  int head = None ->
  (forall st e, ex st = Some e ->
     process_line (c0 :: r) st = Raise (ValueError_int head))
  /\ (forall (pre post : list str) st e w,
        run_lines pre initial = Ok st -> ex st = Some e ->
        get_examples_from_dataset (pre ++ (c0 :: r) :: post) w
        = (Raise (ValueError_int head), w)).
Proof.
  intros Hd Hf Hc Hi.
  assert (forall st e, ex st = Some e ->
            process_line (c0 :: r) st = Raise (ValueError_int head)) as Hstep.
  { intros st e He. rewrite (process_line_token _ _ _ Hd).
    rewrite (get_word_data_fields _ _ _ _ _ _ _ _ _ _ _ _ Hf), Hc, He, Hi.
    reflexivity. }
  split; [exact Hstep |].
  intros pre post st e w Hpre He. unfold get_examples_from_dataset.
  rewrite run_lines_app, Hpre. cbn [bind run_lines].
  rewrite (Hstep _ _ He). reflexivity.
Qed.

(** X6. Characters below U+3400 (Latin, Greek, Cyrillic, Hangul Jamo,
    Hiragana, Katakana) and the Hangul syllables are not in the table:
    a record written with them alone passes the filter, and the blank
    line that finalizes it appends it to the output. *)
Theorem other_scripts_are_accepted (e : Example) :
  (forall word c, In word (words e) -> In c word ->
     c < 0x3400 \/ 0xAC00 <= c <= 0xD7AF) ->
  has_chinese_char e = false
  /\ (forall st, ex st = Some e ->
        process_line blank st =
        Ok {| filtered_examples := filtered_examples st;
              preprocessed_dataset := preprocessed_dataset st ++ [e];
              ex := None |}).
Proof.
  intros Hw.
  assert (has_chinese_char e = false) as Hc.
  { destruct (has_chinese_char e) eqn:E; [| reflexivity].
    apply words_have_chinese_char_spec in E.
    destruct E as (word & c & Hword & Hcw & Hi).
    specialize (Hw word c Hword Hcw). unfold ideographic in Hi. lia. }
  split; [exact Hc |].
  intros st He. rewrite (process_line_blank_open _ _ He).
  unfold finalize. now rewrite Hc.
Qed.

End Counting.

Lemma records_bounded_by_lines_witness :
  0 <= 1 /\ 2 <= 3 /\ 2 + 0 <= 2.
Proof.
  exact (records_bounded_by_lines (B := ascii_builtins)
           (block_s1 ++ [blank; blank] ++ block_s2 ++ [blank])
           {| filtered_examples := 1; preprocessed_dataset := [record_s1];
              ex := None |}
           eq_refl).
Defined.

Lemma head_not_an_integer_aborts_witness :
  get_examples_from_dataset (B := ascii_builtins)
    ([lit "# sent_id = s3" ++ [LF]] ++ no_head_line :: [blank]) empty_world
  = (Raise (ValueError_int (lit "_")), empty_world).
Proof.
  exact (proj2 (head_not_an_integer_aborts (B := ascii_builtins)
                  51 (tl no_head_line) _ _ _ _ _ _ _ _ _ _
                  eq_refl eq_refl eq_refl eq_refl)
           [lit "# sent_id = s3" ++ [LF]] [blank]
           {| filtered_examples := 0; preprocessed_dataset := [];
              ex := Some {| ex_id := lit "s3"; words := []; relns := [];
                            heads := [] |} |}
           {| ex_id := lit "s3"; words := []; relns := []; heads := [] |}
           empty_world eq_refl eq_refl).
Defined.

Lemma other_scripts_are_accepted_witness :
  has_chinese_char record_s1 = false.
Proof.
  refine (proj1 (other_scripts_are_accepted (B := ascii_builtins) record_s1 _)).
  intros word c Hw Hc. left.
  repeat (destruct Hw as [<- | Hw];
          [repeat (destruct Hc as [<- | Hc]; [reflexivity |]); destruct Hc |]).
  destruct Hw.
Defined.

Section Ignored.
Context {B : Builtins}.

Lemma process_line_ignored (line : str) (st : state) :
  is_ignored line = true -> process_line line st = Ok st.
Proof.
  unfold is_ignored, is_blank, process_line.
  destruct line as [|c0 r]; [discriminate |].
  rewrite andb_true_iff, negb_true_iff. intros [-> Hi].
  destruct (c0 =? HASH).
  - now rewrite Hi.
  - apply negb_true_iff in Hi. now rewrite Hi.
Qed.

(** X7. The "# text" comment lines and the lines that start neither
    with ['#'] nor with a digit (the blank line apart) are transparent:
    the run of a stream is the run of the stream without them. *)
Theorem ignored_lines_are_transparent (lines : list str) (st : state) :
  run_lines (filter (fun line => negb (is_ignored line)) lines) st
  = run_lines lines st.
Proof.
  revert st; induction lines as [|l lines IH]; intros st; simpl; [reflexivity |].
  destruct (is_ignored l) eqn:Hi; simpl.
  - rewrite (process_line_ignored _ _ Hi). simpl. apply IH.
  - destruct (process_line l st); simpl; [apply IH | reflexivity].
Qed.

Lemma indented_line_ignored (c0 : Z) (r : str) :
  c0 = SPACE \/ c0 = TAB -> is_ignored (c0 :: r) = true.
Proof. intros [-> | ->]; reflexivity. Qed.

(** X8. Only the line ["\n"] is a boundary.  A line that starts with a
    space or a tab, be it empty otherwise, finalizes nothing: when an
    identifier line follows it, the record that was open is dropped,
    neither accepted nor counted, and the run goes on as the run of the
    remaining lines on their own, after the records accepted before. *)
Theorem whitespace_line_is_no_boundary
    (a rest : list str) (c0 : Z) (r idline : str) (sa : state) :
  c0 = SPACE \/ c0 = TAB ->
  opens_record idline = true ->
  run_lines a initial = Ok sa ->
  run_lines (a ++ (c0 :: r) :: idline :: rest) initial =
  match run_lines (idline :: rest) initial with
  | Ok sb =>
      Ok {| filtered_examples := filtered_examples sa + filtered_examples sb;
            preprocessed_dataset := preprocessed_dataset sa ++ preprocessed_dataset sb;
            ex := ex sb |}
  | Raise x => Raise x
  end.
Proof.
  intros Hc Ho Ha. rewrite run_lines_app, Ha. cbn [bind run_lines].
  rewrite (process_line_ignored _ _ (indented_line_ignored _ r Hc)). cbn [bind].
  rewrite !(process_line_opens _ _ Ho). cbn [bind].
  rewrite run_lines_continued. cbn [ex set_ex].
  destruct (run_lines rest (set_ex initial (Some (new_example idline))));
    reflexivity.
Qed.

End Ignored.

Lemma whitespace_line_is_no_boundary_witness :
  run_lines (B := ascii_builtins)
    (block_s1 ++ spaces_line :: (lit "# sent_id = s2" ++ [LF]) :: tl block_s2 ++ [blank])
    initial
  = Ok {| filtered_examples := 1; preprocessed_dataset := []; ex := None |}.
Proof.
  exact (whitespace_line_is_no_boundary (B := ascii_builtins)
           block_s1 (tl block_s2 ++ [blank]) 32 (tl spaces_line)
           (lit "# sent_id = s2" ++ [LF])
           {| filtered_examples := 0; preprocessed_dataset := [];
              ex := Some record_s1 |}
           (or_introl eq_refl) eq_refl eq_refl).
Defined.

(** * Well-formed lines *)

Lemma split_by_no_sep (p : Z -> bool) (f : str) :
  (forall c, In c f -> p c = false) -> split_by p f = [f].
Proof.
  induction f as [|c f IH]; intros Hf; simpl; [reflexivity |].
  rewrite (Hf c (or_introl eq_refl)), IH; [reflexivity |].
  intros d Hd. apply Hf. now right.
Qed.

Lemma contains_false (c : Z) (f : str) :
  contains c f = false -> forall d, In d f -> (d =? c) = false.
Proof.
  intros Hc d Hd. apply Z.eqb_neq. intros ->.
  apply contains_In in Hd. congruence.
Qed.

(** [split] undoes [join] on fields that do not contain the separator. *)
Lemma split_join (sep : Z) (fields : list str) :
  fields <> [] ->
  forallb (fun f => negb (contains sep f)) fields = true ->
  split sep (join sep fields) = fields.
Proof.
  unfold split. induction fields as [|f fields IH]; [congruence |].
  intros _. cbn [forallb]. rewrite andb_true_iff, negb_true_iff. intros [Hf Hrest].
  destruct fields as [|g fields].
  - simpl. apply (split_by_no_sep (fun c => c =? sep)), (contains_false _ _ Hf).
  - change (join sep (f :: g :: fields)) with (f ++ sep :: join sep (g :: fields)).
    rewrite (split_by_app_sep (fun c => c =? sep) f _ sep (Z.eqb_refl sep)).
    rewrite (split_by_no_sep (fun c => c =? sep) f (contains_false _ _ Hf)).
    rewrite IH; [reflexivity | discriminate | assumption].
Qed.

Lemma join_starts (sep c : Z) (f : str) (fields : list str) :
  exists m, join sep ((c :: f) :: fields) = c :: m.
Proof.
  destruct fields as [|g fields]; simpl; eauto.
Qed.

Lemma join_ends (sep d : Z) (f : str) (init : list str) :
  exists m, join sep (init ++ [f ++ [d]]) = m ++ [d].
Proof.
  induction init as [|g init (m & IH)].
  - now exists f.
  - destruct (init ++ [f ++ [d]]) as [|h rest] eqn:E.
    + now destruct init.
    + change (join sep ((g :: init) ++ [f ++ [d]]))
        with (join sep (g :: init ++ [f ++ [d]])).
      rewrite E. change (join sep (g :: h :: rest)) with (g ++ sep :: join sep (h :: rest)).
      rewrite IH. exists (g ++ sep :: m). now rewrite <- app_assoc.
Qed.

Lemma lstrip_spaces (a b : str) :
  Forall (fun c => isspace c = true) a -> lstrip (a ++ b) = lstrip b.
Proof.
  induction 1 as [|c a Hc _ IH]; simpl; [reflexivity | now rewrite Hc].
Qed.

(** Whitespace after a character that is no whitespace is all that
    [rstrip] removes. *)
Lemma rstrip_trail (m trail : str) (d : Z) :
  isspace d = false ->
  Forall (fun c => isspace c = true) trail ->
  rstrip ((m ++ [d]) ++ trail) = m ++ [d].
Proof.
  intros Hd Ht. unfold rstrip. rewrite rev_app_distr.
  rewrite (lstrip_spaces _ _ (Forall_rev Ht)).
  rewrite rev_app_distr. simpl. rewrite Hd.
  change (d :: rev m) with ([d] ++ rev m).
  now rewrite rev_app_distr, rev_involutive.
Qed.

Section Tokens.
Context {B : Builtins}.

(** What [strip] and [split] make of a well-formed token line: its
    fields. *)
Lemma well_formed_token_fields (token : list str) :
  well_formed_token token = true ->
  split TAB (strip (conllu_line token)) = token
  /\ exists c0 r, conllu_line token = c0 :: r /\ isdigit c0 = true.
Proof.
  unfold well_formed_token.
  rewrite !andb_true_iff, Nat.eqb_eq. intros [[[Hlen Htab] Hfirst] Hlast].
  destruct token as [|f0 [|f1 [|f2 [|f3 [|f4 [|f5 [|f6 [|f7 [|f8 [|f9 [|f10 l]]]]]]]]]]];
    try discriminate.
  unfold field in Hfirst, Hlast. cbn [nth] in Hfirst, Hlast.
  destruct f0 as [|c0 f0]; [discriminate |].
  apply andb_true_iff in Hfirst. destruct Hfirst as [Hd Hns].
  apply negb_true_iff in Hns.
  destruct (rev f9) as [|d x] eqn:Er; [discriminate |].
  apply negb_true_iff in Hlast.
  assert (f9 = rev x ++ [d]) as ->
    by (rewrite <- (rev_involutive f9), Er; reflexivity).
  set (token := [c0 :: f0; f1; f2; f3; f4; f5; f6; f7; f8; rev x ++ [d]]) in *.
  destruct (join_ends TAB d (rev x) [c0 :: f0; f1; f2; f3; f4; f5; f6; f7; f8])
    as (m & Hm).
  change ([c0 :: f0; f1; f2; f3; f4; f5; f6; f7; f8] ++ [rev x ++ [d]])
    with token in Hm.
  destruct (join_starts TAB c0 f0 [f1; f2; f3; f4; f5; f6; f7; f8; rev x ++ [d]])
    as (m' & Hm').
  change ((c0 :: f0) :: [f1; f2; f3; f4; f5; f6; f7; f8; rev x ++ [d]])
    with token in Hm'.
  split.
  - unfold conllu_line, strip. rewrite Hm.
    rewrite (rstrip_trail m [LF] d Hlast) by (now repeat constructor).
    rewrite <- Hm, Hm'. cbn [lstrip]. rewrite Hns, <- Hm'.
    apply split_join; [discriminate | assumption].
  - unfold conllu_line. rewrite Hm'. now exists c0, (m' ++ [LF]).
Qed.

(** One well-formed token line, met while a record is open. *)
Lemma process_line_well_formed (token : list str) (st : state) (e : Example) :
  well_formed_token token = true ->
  ex st = Some e ->
  process_line (conllu_line token) st =
  if is_plain token then
    match int (field 6 token) with
    | Some h => Ok (set_ex st (Some (append_token e (field 1 token) (field 7 token) h)))
    | None => Raise (ValueError_int (field 6 token))
    end
  else Ok st.
Proof.
  intros Hw He. destruct (well_formed_token_fields _ Hw) as (Hf & c0 & r & El & Hd).
  rewrite El in *. rewrite (process_line_token _ _ _ Hd).
  unfold well_formed_token in Hw.
  rewrite !andb_true_iff, Nat.eqb_eq in Hw. destruct Hw as [[[Hlen _] _] _].
  destruct token as [|f0 [|f1 [|f2 [|f3 [|f4 [|f5 [|f6 [|f7 [|f8 [|f9 [|f10 l]]]]]]]]]]];
    try discriminate.
  rewrite (get_word_data_fields _ _ _ _ _ _ _ _ _ _ _ _ Hf), He.
  unfold is_plain, field. cbn [nth].
  destruct (contains DASH f0); cbn [negb bind].
  - now rewrite <- He, set_ex_same.
  - destruct (int f6); reflexivity.
Qed.

Lemma run_lines_well_formed (tokens : list (list str)) :
  forallb well_formed_token tokens = true ->
  forall (hs : list Z) (st : state) (e : Example),
    map (fun t => int (field 6 t)) (filter is_plain tokens) = map Some hs ->
    ex st = Some e ->
    run_lines (map conllu_line tokens) st =
    Ok (set_ex st
          (Some {| ex_id := ex_id e;
                   words := words e ++ map (field 1) (filter is_plain tokens);
                   relns := relns e ++ map (field 7) (filter is_plain tokens);
                   heads := heads e ++ hs |})).
Proof.
  induction tokens as [|t tokens IH]; cbn [forallb map filter run_lines].
  - intros _ [|h hs] st e Hh He; [| discriminate].
    rewrite !app_nil_r. destruct e as [i ws rs hs']. cbn [ex_id words relns heads].
    now rewrite <- He, set_ex_same.
  - rewrite andb_true_iff. intros [Hw Hws] hs st e Hh He.
    rewrite (process_line_well_formed _ _ _ Hw He).
    destruct (is_plain t) eqn:Hp; cbn [bind].
    + cbn [map] in Hh. destruct hs as [|h hs]; [discriminate |].
      injection Hh as Hh0 Hh. rewrite Hh0. cbn [bind].
      rewrite (IH Hws hs
                 (set_ex st (Some (append_token e (field 1 t) (field 7 t) h)))
                 (append_token e (field 1 t) (field 7 t) h) Hh eq_refl).
      unfold append_token, set_ex. cbn [map ex_id words relns heads
        filtered_examples preprocessed_dataset].
      now rewrite <- !app_assoc.
    + exact (IH Hws hs st e Hh He).
Qed.

End Tokens.

Lemma is_identifier_inv (ident : str) :
  is_identifier ident = true ->
  (forall c, In c ident -> isspace c = false)
  /\ (exists c t, ident = c :: t)
  /\ (exists m d, ident = m ++ [d]).
Proof.
  unfold is_identifier. rewrite andb_true_iff, forallb_forall. intros [Hn Hs].
  split; [intros c Hc; now apply negb_true_iff, Hs | split].
  - destruct ident as [|c t]; [discriminate | now exists c, t].
  - destruct (exists_last (l := ident)) as (m & d & ->);
      [destruct ident; [discriminate | congruence] | now exists m, d].
Qed.

Lemma last_field_lstrip (ident pre : str) :
  is_identifier ident = true ->
  last (split SPACE (lstrip (pre ++ SPACE :: ident))) [] = ident.
Proof.
  intros Hi. destruct (is_identifier_inv _ Hi) as (Hs & (c & t & Ec) & _).
  assert (split SPACE ident = [ident]) as Hsplit.
  { apply (split_by_no_sep (fun c => c =? SPACE)). intros d Hd.
    apply Z.eqb_neq. intros ->. specialize (Hs _ Hd). discriminate. }
  induction pre as [|x pre IH]; cbn [app lstrip].
  - replace (isspace SPACE) with true by reflexivity.
    assert (lstrip ident = ident) as ->.
    { rewrite Ec. cbn [lstrip]. rewrite (Hs c); [reflexivity |].
      rewrite Ec. now left. }
    now rewrite Hsplit.
  - destruct (isspace x); [exact IH |].
    unfold split in *.
    change (x :: pre ++ SPACE :: ident) with ((x :: pre) ++ SPACE :: ident).
    rewrite (split_by_app_sep (fun c => c =? SPACE) (x :: pre) ident SPACE eq_refl).
    rewrite Hsplit. apply last_last.
Qed.

Lemma new_example_id_verbatim (pre ident trail : str) :
  is_identifier ident = true ->
  forallb isspace trail = true ->
  ex_id (new_example (pre ++ SPACE :: ident ++ trail)) = ident.
Proof.
  intros Hi Ht. destruct (is_identifier_inv _ Hi) as (Hs & _ & (m & d & Ed)).
  unfold new_example, strip. cbn [ex_id].
  assert (isspace d = false) as Hd
    by (apply Hs; rewrite Ed; apply in_or_app; right; now left).
  assert (pre ++ SPACE :: ident ++ trail = ((pre ++ SPACE :: m) ++ [d]) ++ trail) as ->
    by (rewrite Ed, <- !app_assoc; reflexivity).
  rewrite (rstrip_trail _ trail d Hd)
    by (apply Forall_forall; intros c Hc; exact (proj1 (forallb_forall _ _) Ht c Hc)).
  rewrite <- app_assoc. cbn [app]. rewrite <- Ed.
  now apply last_field_lstrip.
Qed.

(** X9. The identifier is copied verbatim: on a comment line that ends
    with a space, an identifier without whitespace, and then whitespace
    only (the line terminator), the record that the line opens has that
    identifier, whatever precedes the space. *)
Theorem identifier_is_copied_verbatim (pre ident trail : str) :
  is_identifier ident = true ->
  forallb isspace trail = true ->
  ex_id (new_example (pre ++ SPACE :: ident ++ trail)) = ident.
Proof. exact (new_example_id_verbatim pre ident trail). Qed.

Section Sentences.
Context {B : Builtins}.

(** X10. A well-formed token line gives back its fields to the parser,
    [split] undoing [join] after [strip] has removed the line
    terminator and nothing else; so [get_word_data] skips the token
    when its index has a ['-'], and otherwise appends field 1, field 7
    and the integer of field 6, or raises when field 6 is no integer. *)
Theorem well_formed_token_line_is_parsed (token : list str) (e : Example) :
  well_formed_token token = true ->
  split TAB (strip (conllu_line token)) = token
  /\ get_word_data (conllu_line token) (Some e) =
     if is_plain token then
       match int (field 6 token) with
       | Some h =>
           Ok (Some {| ex_id := ex_id e;
                       words := words e ++ [field 1 token];
                       relns := relns e ++ [field 7 token];
                       heads := heads e ++ [h] |})
       | None => Raise (ValueError_int (field 6 token))
       end
     else Ok (Some e).
Proof.
  intros Hw. destruct (well_formed_token_fields _ Hw) as (Hf & _).
  split; [exact Hf |].
  unfold well_formed_token in Hw.
  rewrite !andb_true_iff, Nat.eqb_eq in Hw. destruct Hw as [[[Hlen _] _] _].
  destruct token as [|f0 [|f1 [|f2 [|f3 [|f4 [|f5 [|f6 [|f7 [|f8 [|f9 [|f10 l]]]]]]]]]]];
    try discriminate.
  rewrite (get_word_data_fields _ _ _ _ _ _ _ _ _ _ _ _ Hf).
  unfold is_plain, field. cbn [nth].
  destruct (contains DASH f0); cbn [negb]; [reflexivity |].
  destruct (int f6); reflexivity.
Qed.

Lemma run_lines_sentence
    (ident text : str) (tokens : list (list str)) (hs : list Z) :
  is_identifier ident = true ->
  forallb well_formed_token tokens = true ->
  map (fun t => int (field 6 t)) (filter is_plain tokens) = map Some hs ->
  run_lines
    (sent_id_line ident :: (lit "# text = " ++ text ++ [LF])
       :: map conllu_line tokens ++ [blank])
    initial
  = Ok (finalize initial
          {| ex_id := ident;
             words := map (field 1) (filter is_plain tokens);
             relns := map (field 7) (filter is_plain tokens);
             heads := hs |}).
Proof.
  intros Hi Hw Hh. cbn [run_lines].
  rewrite (process_line_opens (sent_id_line ident) initial eq_refl). cbn [bind].
  rewrite (process_line_ignored (lit "# text = " ++ text ++ [LF]) _ eq_refl).
  cbn [bind]. rewrite run_lines_app.
  assert (ex_id (new_example (sent_id_line ident)) = ident) as Hid.
  { apply (new_example_id_verbatim (lit "# sent_id =") ident [LF] Hi eq_refl). }
  rewrite (run_lines_well_formed tokens Hw hs
             (set_ex initial (Some (new_example (sent_id_line ident))))
             (new_example (sent_id_line ident)) Hh eq_refl).
  cbn [bind run_lines]. rewrite Hid. cbn [new_example words relns heads app].
  rewrite (process_line_blank_open
             (set_ex (set_ex initial (Some (new_example (sent_id_line ident))))
                (Some {| ex_id := ident;
                         words := map (field 1) (filter is_plain tokens);
                         relns := map (field 7) (filter is_plain tokens);
                         heads := hs |}))
             _ eq_refl).
  reflexivity.
Qed.

(** X11. A well-formed sentence block is reconstructed in full: the
    identifier line, the "# text" line, the token lines and the blank
    line give one finalized record with the identifier of the first
    line and, for the tokens that are no compound spans, in their
    order, the forms as [words], the relations as [relns] and the
    integers of the head fields as [heads]. *)
Theorem well_formed_sentence_is_reconstructed
    (ident text : str) (tokens : list (list str)) (hs : list Z) :
  is_identifier ident = true ->
  forallb well_formed_token tokens = true ->
  map (fun t => int (field 6 t)) (filter is_plain tokens) = map Some hs ->
  run_lines
    (sent_id_line ident :: (lit "# text = " ++ text ++ [LF])
       :: map conllu_line tokens ++ [blank])
    initial
  = Ok (finalize initial
          {| ex_id := ident;
             words := map (field 1) (filter is_plain tokens);
             relns := map (field 7) (filter is_plain tokens);
             heads := hs |}).
Proof. exact (run_lines_sentence ident text tokens hs). Qed.

End Sentences.

Lemma identifier_is_copied_verbatim_witness :
  ex_id (new_example (lit "# sent_id =" ++ SPACE :: lit "es-dev-001-s1" ++ [LF]))
  = lit "es-dev-001-s1".
Proof.
  exact (identifier_is_copied_verbatim (lit "# sent_id =") (lit "es-dev-001-s1") [LF]
           eq_refl eq_refl).
Defined.

Lemma well_formed_token_line_is_parsed_witness :
  get_word_data (B := ascii_builtins) (conllu_line (nth 2 tokens_vengo []))
    (Some record_s1)
  = Ok (Some {| ex_id := lit "s1";
                words := [lit "Hola"; lit "mundo"; lit "de"];
                relns := [lit "root"; lit "obj"; lit "case"];
                heads := [0; 1; 4] |}).
Proof.
  exact (proj2 (well_formed_token_line_is_parsed (B := ascii_builtins)
                  (nth 2 tokens_vengo []) record_s1 eq_refl)).
Defined.

Lemma well_formed_sentence_is_reconstructed_witness :
  run_lines (B := ascii_builtins)
    (sent_id_line (lit "s3") :: (lit "# text = " ++ lit "Vengo del mar" ++ [LF])
       :: map conllu_line tokens_vengo ++ [blank])
    initial
  = Ok {| filtered_examples := 0;
          preprocessed_dataset :=
            [ {| ex_id := lit "s3";
                 words := [lit "Vengo"; lit "de"; lit "el"; lit "mar"];
                 relns := [lit "root"; lit "case"; lit "det"; lit "obl"];
                 heads := [0; 4; 4; 1] |} ];
          ex := None |}.
Proof.
  exact (well_formed_sentence_is_reconstructed (B := ascii_builtins)
           (lit "s3") (lit "Vengo del mar") tokens_vengo [0; 4; 4; 1]
           eq_refl eq_refl eq_refl).
Defined.

(** * The entry point *)

Lemma last_char (a : str) (c d : Z) : last (a ++ [c]) d = c.
Proof. apply last_last. Qed.

(** An output name ends with "n" and an input name with "u". *)
Lemma filenames_differ (args : Args) (p q : str) :
  output_filename args p <> dataset_filename args q.
Proof.
  unfold output_filename, dataset_filename. intros E.
  apply (f_equal (fun name => last name 0)) in E.
  change (lit ".json") with (lit ".jso" ++ [110]) in E.
  change (lit ".conllu") with (lit ".conll" ++ [117]) in E.
  rewrite !app_assoc, !last_char in E. discriminate.
Qed.

Lemma output_filename_inj (args : Args) (p q : str) :
  output_filename args p = output_filename args q -> p = q.
Proof.
  unfold output_filename. intros E.
  do 4 apply app_inv_head in E. now apply app_inv_tail in E.
Qed.

Lemma write_file_same (fs : str -> option file) (name : str) (lines : list str) :
  write_file fs name lines name = Some (Text lines).
Proof. unfold write_file. now rewrite str_eqb_refl. Qed.

Lemma write_file_other (fs : str -> option file) (name other : str)
    (lines : list str) :
  other <> name -> write_file fs name lines other = fs other.
Proof.
  intros Hne. unfold write_file. apply str_eqb_neq in Hne. now rewrite Hne.
Qed.

Lemma after_failure_other (s : system) (output name : str) (x : failure) :
  name <> output -> after_failure s output x name = files s name.
Proof.
  intros Hne. unfold after_failure.
  destruct x; try reflexivity.
  destruct (writing s output); try reflexivity.
  now apply write_file_other.
Qed.

Lemma after_failure_written (s : system) (output name : str) (x : failure) :
  writing s output = Written -> after_failure s output x name = files s name.
Proof.
  intros Hw. unfold after_failure. rewrite Hw. now destruct x.
Qed.

Lemma after_failure_ext (s1 s2 : system) (output name : str) (x : failure) :
  writing s1 = writing s2 ->
  files s1 name = files s2 name ->
  after_failure s1 output x name = after_failure s2 output x name.
Proof.
  intros Hw Hf. unfold after_failure. rewrite Hw.
  destruct x; try assumption.
  destruct (writing s2 output); try assumption.
  unfold write_file. now destruct (str_eqb name output).
Qed.

Lemma NoDup_app_apart (l1 l2 : list (list Z)) (a : list Z) :
  NoDup (l1 ++ l2) -> In a l1 -> In a l2 -> False.
Proof.
  induction l1 as [|b l1 IH]; intros Hnd H1 H2; [destruct H1 |].
  cbn [app] in Hnd. inversion Hnd as [|? ? Hb Hrest]; subst.
  destruct H1 as [-> | H1].
  - apply Hb, in_or_app. now right.
  - exact (IH Hrest H1 H2).
Qed.

Lemma partitions_NoDup (args : Args) : NoDup (partitions args).
Proof.
  unfold partitions. destruct (str_eqb (partition args) (lit "all")).
  - repeat constructor; cbn [In]; intros H;
      repeat (destruct H as [H | H]; [discriminate H |]); exact H.
  - repeat constructor. intros [].
Qed.

Section Main.
Context {B : Builtins} {J : Json}.

Lemma failed_on_ext (s1 s2 : system) (input output : str) (x : failure) :
  writing s1 = writing s2 ->
  files s1 input = files s2 input ->
  failed_on s1 input output x -> failed_on s2 input output x.
Proof.
  intros Hw Hf. unfold failed_on. rewrite Hw, Hf. exact (fun H => H).
Qed.

Lemma get_examples_from_dataset_files_outcome
    (input output : str) (s s' : system) (r : option failure) :
  get_examples_from_dataset_files input output s = (r, s') ->
  writing s' = writing s
  /\ match r with
     | None =>
         writing s output = Written
         /\ exists lines st,
              files s input = Some (Text lines)
              /\ run_lines lines initial = Ok st
              /\ (forall name,
                    files s' name =
                    write_file (files s) output
                      (json_dump (preprocessed_dataset st)) name)
     | Some x =>
         failed_on s input output x
         /\ (forall name, files s' name = after_failure s output x name)
     end.
Proof.
  unfold get_examples_from_dataset_files, failed_on, after_failure.
  destruct (files s input) as [[lines|]|] eqn:Hf.
  - destruct (run_lines lines initial) as [st | e] eqn:Hr.
    + destruct (writing s output) as [| |partial] eqn:Hw; intros [= <- <-];
        cbn [writing files]; repeat split; eauto.
    + intros [= <- <-]. split; [reflexivity |].
      split; [now exists lines | reflexivity].
  - intros [= <- <-]. now repeat split.
  - intros [= <- <-]. now repeat split.
Qed.

(** When the output can be written, the call prints and writes what
    [get_examples_from_dataset] prints and writes. *)
Lemma get_examples_from_dataset_files_written
    (input output : str) (s : system) (lines : list str) :
  files s input = Some (Text lines) ->
  writing s output = Written ->
  get_examples_from_dataset_files input output s =
  match get_examples_from_dataset lines {| stdout := []; output_file := None |} with
  | (Raise e, _) => (Some (Uncaught e), s)
  | (Ok _, w) =>
      (None,
       {| console := console s ++ map Said (stdout w);
          files := match output_file w with
                   | Some d => write_file (files s) output (json_dump d)
                   | None => files s
                   end;
          writing := writing s |})
  end.
Proof.
  intros Hf Hw. unfold get_examples_from_dataset_files, get_examples_from_dataset.
  rewrite Hf. destruct (run_lines lines initial) as [st | e]; [| reflexivity].
  rewrite Hw. cbn [stdout output_file app].
  destruct (filtered_examples st >? 0); cbn [map app];
    now rewrite <- ?app_assoc, ?app_nil_r.
Qed.

Lemma main_loop_outcome (args : Args) (todo : list str) :
  forall (s s' : system) (r : option failure),
    main_loop args todo s = (r, s') ->
    writing s' = writing s
    /\ exists done rest,
         todo = done ++ rest
         /\ (forall q, In q done ->
               processed (files s) (files s')
                 (dataset_filename args q) (output_filename args q))
         /\ match r with
            | None =>
                rest = []
                /\ (forall name,
                      (forall q, In q done -> name <> output_filename args q) ->
                      files s' name = files s name)
            | Some x =>
                exists p rest',
                  rest = p :: rest'
                  /\ failed_on s (dataset_filename args p) (output_filename args p) x
                  /\ (forall name,
                        (forall q, In q done -> name <> output_filename args q) ->
                        files s' name = after_failure s (output_filename args p) x name)
            end.
Proof.
  induction todo as [|p todo IH]; intros s s' r; cbn [main_loop].
  - intros [= <- <-]. split; [reflexivity |]. exists [], [].
    split; [reflexivity | split; [intros q [] | split; reflexivity]].
  - set (s1 := {| console := console s ++ [Preprocessed p]; files := files s;
                  writing := writing s |}).
    destruct (get_examples_from_dataset_files (dataset_filename args p)
                (output_filename args p) s1) as [[x|] s2] eqn:Hcall;
      apply get_examples_from_dataset_files_outcome in Hcall;
      destruct Hcall as [Hw2 Hcall]; cbn [writing s1] in Hw2.
    + intros [= <- <-]. destruct Hcall as [Hfail Hafter].
      split; [exact Hw2 |]. exists [], (p :: todo).
      split; [reflexivity | split; [intros q [] |]].
      exists p, todo. split; [reflexivity | split; [exact Hfail |]].
      intros name _. apply Hafter.
    + destruct Hcall as (Hwp & lines & st & Hin & Hrun & Hout).
      cbn [files writing s1] in Hwp, Hin, Hout.
      intros Hloop.
      destruct (IH _ _ _ Hloop) as (Hw' & done & rest & -> & Hdone & Hr).
      assert (forall q, files s2 (dataset_filename args q) = files s (dataset_filename args q))
        as Hinputs.
      { intros q. rewrite Hout. apply write_file_other.
        intros E. exact (filenames_differ _ _ _ (eq_sym E)). }
      assert (forall name, name <> output_filename args p -> files s2 name = files s name)
        as Hother.
      { intros name Hne. rewrite Hout. now apply write_file_other. }
      split; [congruence |].
      exists (p :: done), rest. split; [reflexivity | split].
      * intros q [<- | Hq].
        -- exists lines, st. split; [assumption | split; [assumption |]].
           destruct (in_dec (list_eq_dec Z.eq_dec) p done) as [Hp | Hp].
           ++ destruct (Hdone p Hp) as (lines' & st' & Hin' & Hrun' & Hout').
              rewrite Hinputs, Hin in Hin'. injection Hin' as <-.
              rewrite Hrun in Hrun'. injection Hrun' as <-. exact Hout'.
           ++ assert (forall q, In q done ->
                        output_filename args p <> output_filename args q) as Hfresh.
              { intros q Hq E. apply output_filename_inj in E. now subst q. }
              destruct r as [x|].
              ** destruct Hr as (p' & rest' & _ & _ & Hafter).
                 rewrite (Hafter _ Hfresh).
                 destruct (list_eq_dec Z.eq_dec p' p) as [-> | Hne].
                 --- rewrite after_failure_written by congruence.
                     rewrite Hout. apply write_file_same.
                 --- rewrite after_failure_other.
                     +++ rewrite Hout. apply write_file_same.
                     +++ intros E. apply output_filename_inj in E. congruence.
              ** destruct Hr as [_ Hframe]. rewrite (Hframe _ Hfresh).
                 rewrite Hout. apply write_file_same.
        -- destruct (Hdone q Hq) as (lines' & st' & Hin' & Hrun' & Hout').
           exists lines', st'. rewrite <- Hinputs. now repeat split.
      * destruct r as [x|].
        -- destruct Hr as (p' & rest' & -> & Hfail & Hafter). exists p', rest'.
           split; [reflexivity | split].
           ++ apply (failed_on_ext s2 s); [assumption | apply Hinputs | exact Hfail].
           ++ intros name Hname. rewrite Hafter by (intros q Hq; apply Hname; now right).
              apply after_failure_ext; [assumption |].
              apply Hother, Hname. now left.
        -- destruct Hr as [-> Hframe]. split; [reflexivity |].
           intros name Hname. rewrite Hframe by (intros q Hq; apply Hname; now right).
           apply Hother, Hname. now left.
Qed.

End Main.

Section MainTheorems.
Context {B : Builtins} {J : Json}.

(** X12. The script never writes over a file it reads: an output name
    is never the name of an input, whatever the directories, the
    language and the partitions; and after [main], with or without a
    failure, every input file and every file that is not the output of
    one of the partitions is what it was. *)
Theorem main_leaves_its_inputs_alone (args : Args) (s s' : system)
    (r : option failure) :
  main args s = (r, s') ->
  (forall p q, output_filename args p <> dataset_filename args q)
  /\ (forall q, files s' (dataset_filename args q) = files s (dataset_filename args q))
  /\ (forall name,
        (forall p, In p (partitions args) -> name <> output_filename args p) ->
        files s' name = files s name).
Proof.
  intros Hm. apply main_loop_outcome in Hm.
  destruct Hm as (_ & done & rest & Hp & _ & Hr).
  assert (forall name,
            (forall p, In p (partitions args) -> name <> output_filename args p) ->
            files s' name = files s name) as Hframe.
  { intros name Hname.
    assert (forall q, In q done -> name <> output_filename args q) as Hd
      by (intros q Hq; apply Hname; rewrite Hp; apply in_or_app; now left).
    destruct r as [x|].
    - destruct Hr as (p & rest' & -> & _ & Hafter). rewrite (Hafter _ Hd).
      apply after_failure_other, Hname. rewrite Hp. apply in_or_app. right. now left.
    - destruct Hr as [_ Hf]. exact (Hf _ Hd). }
  split; [exact (filenames_differ args) | split; [| exact Hframe]].
  intros q. apply Hframe. intros p _ E. exact (filenames_differ _ _ _ (eq_sym E)).
Qed.

(** X13. When [main] ends without a failure, every partition asked for
    ("dev", "test" and "train" for "all", else the one named) had a
    readable input file on which the loop did not raise, and its output
    file holds the dump of exactly the records accepted from that input:
    no partition's output is lost to a later one. *)
Theorem main_writes_every_partition (args : Args) (s s' : system) :
  main args s = (None, s') ->
  forall p, In p (partitions args) ->
    exists lines st,
      files s (dataset_filename args p) = Some (Text lines)
      /\ run_lines lines initial = Ok st
      /\ files s' (output_filename args p)
         = Some (Text (json_dump (preprocessed_dataset st))).
Proof.
  intros Hm p Hp. apply main_loop_outcome in Hm.
  destruct Hm as (_ & done & rest & Hps & Hdone & -> & _).
  rewrite app_nil_r in Hps. rewrite Hps in Hp. exact (Hdone p Hp).
Qed.

(** X14. When [main] fails, it fails on one partition, for one of five
    reasons: its input cannot be opened, its input cannot be decoded,
    its lines make the loop raise, its output cannot be opened, or the
    dump into its output fails.  The partitions before it have their
    output files written in full; the output files of the partitions
    after it are what they were; and so is the output file of the
    failing partition, unless it is the dump that failed, which leaves
    in it what had been written. *)
Theorem main_stops_at_the_first_failure (args : Args) (s s' : system) (x : failure) :
  main args s = (Some x, s') ->
  exists done p rest,
    partitions args = done ++ p :: rest
    /\ match x with
       | CannotOpen name =>
           name = dataset_filename args p
           /\ files s (dataset_filename args p) = None
       | CannotDecode name =>
           name = dataset_filename args p
           /\ files s (dataset_filename args p) = Some Undecodable
       | Uncaught e =>
           exists lines,
             files s (dataset_filename args p) = Some (Text lines)
             /\ run_lines lines initial = Raise e
       | CannotWrite name =>
           name = output_filename args p
           /\ writing s (output_filename args p) = OpenFails
           /\ exists lines st,
                files s (dataset_filename args p) = Some (Text lines)
                /\ run_lines lines initial = Ok st
       | CannotDump name =>
           name = output_filename args p
           /\ (exists partial, writing s (output_filename args p) = DumpFails partial)
           /\ exists lines st,
                files s (dataset_filename args p) = Some (Text lines)
                /\ run_lines lines initial = Ok st
       end
    /\ (forall q, In q done ->
          exists lines st,
            files s (dataset_filename args q) = Some (Text lines)
            /\ run_lines lines initial = Ok st
            /\ files s' (output_filename args q)
               = Some (Text (json_dump (preprocessed_dataset st))))
    /\ (forall q, In q rest ->
          files s' (output_filename args q) = files s (output_filename args q))
    /\ files s' (output_filename args p) =
       match x, writing s (output_filename args p) with
       | CannotDump _, DumpFails partial => Some (Text partial)
       | _, _ => files s (output_filename args p)
       end.
Proof.
  intros Hm. pose proof (partitions_NoDup args) as Hnd.
  apply main_loop_outcome in Hm.
  destruct Hm as (_ & done & rest0 & Hps & Hdone & (p & rest & -> & Hfail & Hafter)).
  rewrite Hps in Hnd.
  assert (forall q, In q (p :: rest) -> forall q', In q' done ->
            output_filename args q <> output_filename args q') as Hfresh.
  { intros q Hq q' Hq' E. apply output_filename_inj in E. subst q'.
    exact (NoDup_app_apart _ _ _ Hnd Hq' Hq). }
  exists done, p, rest.
  split; [exact Hps | split; [exact Hfail | split; [exact Hdone | split]]].
  - intros q Hq. rewrite (Hafter _ (Hfresh q (or_intror Hq))).
    apply after_failure_other. intros E. apply output_filename_inj in E. subst q.
    apply NoDup_app_remove_l in Hnd. inversion Hnd. contradiction.
  - rewrite (Hafter _ (Hfresh p (or_introl eq_refl))). unfold after_failure.
    destruct x; try reflexivity.
    destruct (writing s (output_filename args p)); try reflexivity.
    apply write_file_same.
Qed.

End MainTheorems.

Lemma main_leaves_its_inputs_alone_witness :
  files (snd (main (B := ascii_builtins) (J := one_line_json) args_all data_directory))
    (lit "data/es_gsd-ud-dev.conllu")
  = Some (Text (end_to_end ++ [blank])).
Proof.
  exact (proj1 (proj2
           (main_leaves_its_inputs_alone (B := ascii_builtins) (J := one_line_json)
              args_all data_directory
              (snd (main (B := ascii_builtins) (J := one_line_json)
                      args_all data_directory))
              (Some (CannotOpen (lit "data/es_gsd-ud-test.conllu")))
              eq_refl))
           (lit "dev")).
Defined.

Lemma main_writes_every_partition_witness :
  exists lines st,
    files data_directory (lit "data/es_gsd-ud-dev.conllu") = Some (Text lines)
    /\ run_lines (B := ascii_builtins) lines initial = Ok st
    /\ files (snd (main (B := ascii_builtins) (J := one_line_json)
                     args_dev data_directory))
         (lit "out/es_gsd-ud-dev.json")
       = Some (Text (json_dump (Json := one_line_json) (preprocessed_dataset st))).
Proof.
  exact (main_writes_every_partition (B := ascii_builtins) (J := one_line_json)
           args_dev data_directory
           (snd (main (B := ascii_builtins) (J := one_line_json)
                   args_dev data_directory))
           eq_refl (lit "dev") (or_introl eq_refl)).
Defined.

(** With the output directory missing, the run of "dev" fails at the
    second [open], after the count has been printed. *)
Example main_output_directory_missing :
  fst (main (B := ascii_builtins) (J := one_line_json) args_missing_dir data_directory)
    = Some (CannotWrite (lit "nowhere/es_gsd-ud-dev.json"))
  /\ console (snd (main (B := ascii_builtins) (J := one_line_json)
                     args_missing_dir data_directory))
     = [Preprocessed (lit "dev"); Said (Filtered 1)].
Proof. split; reflexivity. Qed.

Lemma main_stops_at_the_first_failure_witness :
  exists done p rest,
    [lit "dev"; lit "test"; lit "train"] = done ++ p :: rest
    /\ (lit "data/es_gsd-ud-test.conllu" = dataset_filename args_all p
        /\ files data_directory (dataset_filename args_all p) = None)
    /\ (forall q, In q done ->
          exists lines st,
            files data_directory (dataset_filename args_all q) = Some (Text lines)
            /\ run_lines (B := ascii_builtins) lines initial = Ok st
            /\ files (snd (main (B := ascii_builtins) (J := one_line_json)
                             args_all data_directory))
                 (output_filename args_all q)
               = Some (Text (json_dump (Json := one_line_json)
                               (preprocessed_dataset st))))
    /\ (forall q, In q rest ->
          files (snd (main (B := ascii_builtins) (J := one_line_json)
                        args_all data_directory))
            (output_filename args_all q)
          = files data_directory (output_filename args_all q))
    /\ files (snd (main (B := ascii_builtins) (J := one_line_json)
                     args_all data_directory))
         (output_filename args_all p)
       = files data_directory (output_filename args_all p).
Proof.
  exact (main_stops_at_the_first_failure (B := ascii_builtins) (J := one_line_json)
           args_all data_directory
           (snd (main (B := ascii_builtins) (J := one_line_json)
                   args_all data_directory))
           (CannotOpen (lit "data/es_gsd-ud-test.conllu"))
           eq_refl).
Defined.

(** * A well-formed treebank *)

Section Corpus.
Context {B : Builtins}.





End Corpus.

